(** * Connection-lifecycle manager of mcp-server-motherduck

    A shallow embedding of [src/mcp_server_motherduck/database.py]
    (class [DatabaseClient]) and of the [query] tool of
    [src/mcp_server_motherduck/fastmcp_server.py], followed by the
    properties of the specification that were checked against it.

    Modelling conventions.
    - The SQL engine ([duckdb]), the wall clock ([time.time]) and
      [asyncio.sleep] are external: they are the operations of the
      class [Engine] over an abstract engine state.  Every theorem
      holds for every engine.
    - Python exceptions are the left summand of a result; a raise keeps
      the mutations made so far (the state is threaded through errors).
    - Every call that reaches the engine is recorded in a trace, which
      is what the properties on probes, attempts and releases observe.
    - Clock readings and durations are integers (seconds).
    - A cursor carries its [description] and its rows; [fetchall] and the
      rendering by [tabulate] do not raise.
    - [DatabaseClient._connection_lock] is an [asyncio.Lock] held for
      the whole body of [_ensure_connection]; one call is modelled at a
      time, so the lock has no counterpart here. *)

From Stdlib Require Import String Ascii ZArith List Bool Lia.
From stdpp Require Import base option gmap strings.
Import ListNotations.

Local Open Scope string_scope.
Local Open Scope Z_scope.

#[local] Arguments String.append !s1 s2 : simpl nomatch.

(** ** Strings as Python uses them *)

(** [p] is an initial segment of [s]. *)
Fixpoint is_prefix (p s : string) : bool :=
  match p, s with
  | EmptyString, _ => true
  | String a p', String b s' => Ascii.eqb a b && is_prefix p' s'
  | String _ _, EmptyString => false
  end.

(** [s.startswith(p)] *)
Definition startswith (s p : string) : bool := is_prefix p s.

(** [sub in s] *)
Fixpoint contains (sub s : string) : bool :=
  is_prefix sub s ||
  match s with
  | EmptyString => false
  | String _ s' => contains sub s'
  end.

(** Number of positions of [s] at which [sub] occurs. *)
Fixpoint occurrences (sub s : string) : nat :=
  ((if is_prefix sub s then 1 else 0) +
   match s with
   | EmptyString => 0
   | String _ s' => occurrences sub s'
   end)%nat.

(** [c] is one of the characters of [s]. *)
Fixpoint has_char (c : ascii) (s : string) : bool :=
  match s with
  | EmptyString => false
  | String a s' => Ascii.eqb a c || has_char c s'
  end.

(** Truth value of a [str | None]: [None] and the empty string are false.
    [nonempty o] is the string when [o] counts as true ([if o:]). *)
Definition nonempty (o : option string) : option string :=
  match o with
  | Some (String a s) => Some (String a s)
  | _ => None
  end.

Definition newline : string := String (ascii_of_nat 10) EmptyString.

(** ** Exceptions *)

Inductive exn : Type :=
| EngineError (msg : string)      (* raised by duckdb *)
| ValueError (msg : string)
| AttributeError (msg : string).

(** [str(e)] *)
Definition str (e : exn) : string :=
  match e with
  | EngineError m | ValueError m | AttributeError m => m
  end.

(** ** The engine *)

Definition handle := nat.

(** What [conn.execute(sql)] gives back: [description] and [fetchall()]. *)
Record cursor : Type := Cursor {
  description : list (string * string);
  fetchall : list (list string)
}.

Inductive config_value : Type :=
| CfgStr (s : string)
| CfgBool (b : bool).

Class Engine (E : Type) : Type := {
  (** [time.time()] *)
  time_time : E -> Z;
  (** [duckdb.connect(path, config=..., read_only=...)] *)
  duckdb_connect : string -> gmap string config_value -> bool -> E -> (string + handle) * E;
  (** [conn.execute(sql)] *)
  conn_execute : handle -> string -> E -> (string + cursor) * E;
  (** [conn.close()]; [Some msg] when it raises *)
  conn_close : handle -> E -> option string * E;
  (** [asyncio.sleep(secs)] *)
  asyncio_sleep : Z -> E -> E
}.

Inductive event : Type :=
| EvConnect (path : string) (read_only : bool) (res : string + handle)
| EvExecute (h : handle) (sql : string) (res : string + cursor)
| EvClose (h : handle) (res : option string)
| EvSleep (secs : Z).

Inductive db_kind : Type := duckdb | motherduck.

Definition db_kind_eqb (a b : db_kind) : bool :=
  match a, b with
  | duckdb, duckdb | motherduck, motherduck => true
  | _, _ => false
  end.

(** ** Target resolution *)

Definition missing_token_message : string :=
  "Please set the `motherduck_token` as an environment variable or pass it as an argument with `--motherduck-token` when using `md:` as db_path.".

(** [os.getenv(name)] *)
Definition os_getenv (environ : gmap string string) (name : string) : option string :=
  environ !! name.

(** [DatabaseClient._resolve_db_path_type] *)
Definition _resolve_db_path_type (environ : gmap string string)
    (db_path : string) (motherduck_token : option string) (saas_mode : bool)
  : exn + (string * db_kind) :=
  if startswith db_path "md:" then
    match nonempty motherduck_token with
    | Some token =>
        if saas_mode then
          inr (db_path ++ "?motherduck_token=" ++ token ++ "&saas_mode=true", motherduck)
        else
          inr (db_path ++ "?motherduck_token=" ++ token, motherduck)
    | None =>
        match nonempty (os_getenv environ "motherduck_token") with
        | Some token => inr (db_path ++ "?motherduck_token=" ++ token, motherduck)
        | None => inl (ValueError missing_token_message)
        end
    end
  else if String.eqb db_path ":memory:" then
    inr (db_path, duckdb)
  else
    inr (db_path, duckdb).

(** The single-attach step of [DatabaseClient.__init__] (lines 49-52). *)
Definition add_single_attach (db_path : string) : string :=
  if contains "?" db_path then db_path ++ "&single_attach=true"
  else db_path ++ "?single_attach=true".

(** ** The client *)

Record DatabaseClient : Type := Client {
  _read_only : bool;
  db_path : string;
  db_type : db_kind;
  conn : option handle;
  _last_health_check : Z;
  _health_check_interval : Z;
  _max_retries : Z;
  _retry_delay : Z;
  _connection_config : gmap string config_value
}.

Definition set_conn (c : DatabaseClient) (v : option handle) : DatabaseClient :=
  Client (_read_only c) (db_path c) (db_type c) v (_last_health_check c)
         (_health_check_interval c) (_max_retries c) (_retry_delay c)
         (_connection_config c).

Definition set_last_health_check (c : DatabaseClient) (t : Z) : DatabaseClient :=
  Client (_read_only c) (db_path c) (db_type c) (conn c) t
         (_health_check_interval c) (_max_retries c) (_retry_delay c)
         (_connection_config c).

(** [range(n)] *)
Definition range (n : Z) : list Z := map Z.of_nat (seq 0 (Z.to_nat n)).

Inductive loop_ctl : Type := Break | Continue.

(** ** State and exceptions *)

Section Monad.

Context {E : Type}.

(** The process as one call sees it: the object, the engine, [os.environ]
    and the engine calls made so far. *)
Record state : Type := State {
  self : DatabaseClient;
  engine : E;
  environ : gmap string string;
  trace : list event
}.

Definition with_self (s : state) (c : DatabaseClient) : state :=
  State c (engine s) (environ s) (trace s).

Definition M (A : Type) : Type := state -> (exn + A) * state.

Definition ret {A} (a : A) : M A := fun s => (inr a, s).

Definition raise {A} (e : exn) : M A := fun s => (inl e, s).

Definition bind {A B} (m : M A) (k : A -> M B) : M B :=
  fun s =>
    match m s with
    | (inl e, s') => (inl e, s')
    | (inr a, s') => k a s'
    end.

(** [try: m except Exception as e: handler e] *)
Definition try_except {A} (m : M A) (handler : exn -> M A) : M A :=
  fun s =>
    match m s with
    | (inl e, s') => handler e s'
    | (inr a, s') => (inr a, s')
    end.

(** [try: m finally: cleanup]; an exception of [cleanup] replaces the
    outcome of [m]. *)
Definition try_finally {A} (m : M A) (cleanup : M unit) : M A :=
  fun s =>
    match m s with
    | (r, s') =>
        match cleanup s' with
        | (inl e, s'') => (inl e, s'')
        | (inr _, s'') => (r, s'')
        end
    end.

Definition get_self : M DatabaseClient := fun s => (inr (self s), s).

Definition put_self (c : DatabaseClient) : M unit := fun s => (inr tt, with_self s c).

(** [for x in xs: body x], where the body says whether it ran into [break]. *)
Fixpoint for_each {A} (xs : list A) (body : A -> M loop_ctl) : M unit :=
  match xs with
  | [] => ret tt
  | x :: xs' =>
      bind (body x) (fun ctl =>
        match ctl with
        | Break => ret tt
        | Continue => for_each xs' body
        end)
  end.

End Monad.

Arguments state E : clear implicits.
Arguments M E A : clear implicits.

Declare Scope py_scope.
Delimit Scope py_scope with py.
Notation "x <- m ;; k" := (bind m (fun x => k))
  (at level 100, m at next level, k at level 200, right associativity) : py_scope.
Notation "m ;; k" := (bind m (fun _ => k))
  (at level 100, k at level 200, right associativity) : py_scope.
Local Open Scope py_scope.

Section Client.

Context {E : Type} {engine_ops : Engine E}.

(** [SERVER_VERSION] is defined in [configs.py] and [tabulate(rows,
    headers=..., tablefmt="pretty")] in the tabulate package; the client
    is parametric in both. *)
Variable SERVER_VERSION : string.
Variable tabulate : list (list string) -> list string -> string.

#[local] Abbreviation M := (M E).
#[local] Abbreviation state := (state E).

(** *** Engine calls, recorded in the trace *)

Definition now : M Z := fun s => (inr (time_time (engine s)), s).

Definition connect (path : string) (config : gmap string config_value) (read_only : bool)
  : M handle :=
  fun s =>
    match duckdb_connect path config read_only (engine s) with
    | (r, e') =>
        (match r with inl m => inl (EngineError m) | inr h => inr h end,
         State (self s) e' (environ s) (trace s ++ [EvConnect path read_only r]))
    end.

Definition execute (h : handle) (sql : string) : M cursor :=
  fun s =>
    match conn_execute h sql (engine s) with
    | (r, e') =>
        (match r with inl m => inl (EngineError m) | inr q => inr q end,
         State (self s) e' (environ s) (trace s ++ [EvExecute h sql r]))
    end.

Definition close_handle (h : handle) : M unit :=
  fun s =>
    match conn_close h (engine s) with
    | (r, e') =>
        (match r with Some m => inl (EngineError m) | None => inr tt end,
         State (self s) e' (environ s) (trace s ++ [EvClose h r]))
    end.

Definition sleep (secs : Z) : M unit :=
  fun s =>
    (inr tt, State (self s) (asyncio_sleep secs (engine s)) (environ s)
                   (trace s ++ [EvSleep secs])).

Definition none_has_no_attribute (name : string) : exn :=
  AttributeError ("'NoneType' object has no attribute '" ++ name ++ "'").

(** *** Methods of [DatabaseClient] *)

(** [DatabaseClient._initialize_connection] *)
Definition _initialize_connection : M (option handle) :=
  c <- get_self ;;
  if db_kind_eqb (db_type c) duckdb && _read_only c then
    (* the handler at lines 73-75 logs and re-raises *)
    try_except
      (h <- connect (db_path c) (_connection_config c) (_read_only c) ;;
       execute h "SELECT 1" ;;
       close_handle h ;;
       ret None)
      (fun e => raise e)
  else
    h <- connect (db_path c) (_connection_config c) (_read_only c) ;;
    ret (Some h).

(** [DatabaseClient._health_check] *)
Definition _health_check : M bool :=
  c <- get_self ;;
  match conn c with
  | None => ret true
  | Some h =>
      current_time <- now ;;
      if current_time - _last_health_check c <? _health_check_interval c then
        ret true
      else
        try_except
          (execute h "SELECT 1" ;;
           c <- get_self ;;
           put_self (set_last_health_check c current_time) ;;
           ret true)
          (fun _ => ret false)
  end.

(** Body of the retry loop of [_ensure_connection] (lines 124-134). *)
Definition reconnect_attempt (attempt : Z) : M loop_ctl :=
  try_except
    (new_conn <- _initialize_connection ;;
     c <- get_self ;;
     put_self (set_conn c new_conn) ;;
     match new_conn with
     | Some _ => ret Break
     | None => ret Continue
     end)
    (fun e =>
       c <- get_self ;;
       if attempt <? _max_retries c - 1 then
         sleep (_retry_delay c * 2 ^ attempt) ;;
         ret Continue
       else
         raise e).

(** [DatabaseClient._ensure_connection] *)
Definition _ensure_connection : M (option handle) :=
  c <- get_self ;;
  match conn c with
  | None =>
      h <- connect (db_path c) (_connection_config c) (_read_only c) ;;
      ret (Some h)
  | Some stale =>
      healthy <- _health_check ;;
      (if negb healthy then
         try_except (close_handle stale) (fun _ => ret tt) ;;
         c <- get_self ;;
         for_each (range (_max_retries c)) reconnect_attempt
       else ret tt) ;;
      c <- get_self ;;
      ret (conn c)
  end.

(** Headers of the rendered table: [d[0] + "\n" + d[1]]. *)
Definition headers (q : cursor) : list string :=
  map (fun d => fst d ++ newline ++ snd d) (description q).

(** [conn.execute(query)] on what [_ensure_connection] returned. *)
Definition execute_on (target : option handle) (sql : string) : M cursor :=
  match target with
  | Some h => execute h sql
  | None => raise (none_has_no_attribute "execute")
  end.

(** [conn.close()] on what [_ensure_connection] returned. *)
Definition close_on (target : option handle) : M unit :=
  match target with
  | Some h => close_handle h
  | None => raise (none_has_no_attribute "close")
  end.

(** [DatabaseClient._execute] *)
Definition _execute (query : string) : M string :=
  target <- _ensure_connection ;;
  c <- get_self ;;
  let is_temp_conn := match conn c with None => true | Some _ => false end in
  try_finally
    (q <- execute_on target query ;;
     ret (tabulate (fetchall q) (headers q)))
    (if is_temp_conn then close_on target else ret tt).

Definition query_error_prefix : string := "❌ Error executing query: ".

(** [DatabaseClient.query] *)
Definition query (sql : string) : M string :=
  try_except (_execute sql)
             (fun e => raise (ValueError (query_error_prefix ++ str e))).

(** [DatabaseClient.query_sync] *)
Definition query_sync (sql : string) : M string :=
  c <- get_self ;;
  match conn c with
  | None =>
      h <- connect (db_path c) (_connection_config c) (_read_only c) ;;
      try_finally
        (q <- execute h sql ;;
         ret (tabulate (fetchall q) (headers q)))
        (close_handle h)
  | Some h =>
      try_except
        (q <- execute h sql ;;
         ret (tabulate (fetchall q) (headers q)))
        (fun e => raise (ValueError (query_error_prefix ++ str e)))
  end.

(** [DatabaseClient.close] *)
Definition close : M unit :=
  c <- get_self ;;
  match conn c with
  | Some h =>
      try_except (close_handle h) (fun _ => ret tt) ;;
      c <- get_self ;;
      put_self (set_conn c None)
  | None => ret tt
  end.

(** A [DatabaseClient] object before [__init__] has run. *)
Definition blank : DatabaseClient := Client false "" duckdb None 0 0 0 0 ∅.

(** [DatabaseClient.__init__]: fills in [self]; when it raises, no object
    reaches the caller. *)
Definition __init__ (db_path motherduck_token home_dir : option string)
    (saas_mode read_only : bool) : M unit :=
  fun s =>
    match db_path with
    | None => (inl (none_has_no_attribute "startswith"), s)
    | Some raw =>
        match _resolve_db_path_type (environ s) raw motherduck_token saas_mode with
        | inl e => (inl e, s)
        | inr (path, kind) =>
            let environ' :=
              match nonempty home_dir with
              | Some dir => <["HOME" := dir]> (environ s)
              | None => environ s
              end in
            let config : gmap string config_value :=
              {["custom_user_agent" := CfgStr ("mcp-server-motherduck/" ++ SERVER_VERSION)]} in
            let config :=
              if db_kind_eqb kind motherduck then
                <["enable_fsst_vectors" := CfgBool false]>
                  (<["enable_external_access" := CfgBool true]> config)
              else config in
            let path := if db_kind_eqb kind motherduck then add_single_attach path else path in
            let c := Client read_only path kind None 0 30 3 1 config in
            (new_conn <- _initialize_connection ;;
             c <- get_self ;;
             put_self (set_conn c new_conn))
              (State c (engine s) environ' (trace s))
        end
    end.

End Client.

(** ** The [query] tool of [fastmcp_server.py] *)

Module fastmcp_server.

Section Tool.

Context {E : Type} {engine_ops : Engine E}.
Variable SERVER_VERSION : string.
Variable tabulate : list (list string) -> list string -> string.

Record DatabaseConfig : Type := {
  db_path : string;
  motherduck_token : option string;
  home_dir : option string;
  saas_mode : bool;
  read_only : bool
}.

(** Field defaults of [DatabaseConfig]. *)
Definition default_config : DatabaseConfig :=
  {| db_path := "md:"; motherduck_token := None; home_dir := None;
     saas_mode := false; read_only := false |}.

(** The [db_client] that [create_fastmcp_server] builds. *)
Definition create_fastmcp_server (config : DatabaseConfig) : M E unit :=
  __init__ SERVER_VERSION (Some (db_path config)) (motherduck_token config)
           (home_dir config) (saas_mode config) (read_only config).

(** The tool [query].  [db_client.query] exists and is a coroutine
    function, so the test at line 62 holds and [query_sync] is not
    reached from here; [str] of the rendered table is the table. *)
Definition query (sql : string) : M E string :=
  try_except
    (result <- query tabulate sql ;;
     ret result)
    (fun e => raise (ValueError ("Error executing query: " ++ str e))).

End Tool.

End fastmcp_server.

(** ** A scripted engine

    A fake engine to run the client on concrete inputs: each kind of
    call takes its next outcome from a script ([Some msg] makes the
    call raise [msg], [None] or an exhausted script lets it succeed),
    handles are numbered in order of creation, and sleeping advances
    the clock. *)

Record fake_engine : Type := Fake {
  fake_clock : Z;
  fake_connects : list (option string);
  fake_executes : list (option string);
  fake_closes : list (option string);
  fake_next : handle
}.

Definition one_row : cursor := Cursor [("1", "INTEGER")] [["1"]].

Definition fake_connect (e : fake_engine) : (string + handle) * fake_engine :=
  match fake_connects e with
  | Some msg :: rest =>
      (inl msg, Fake (fake_clock e) rest (fake_executes e) (fake_closes e) (fake_next e))
  | None :: rest =>
      (inr (fake_next e),
       Fake (fake_clock e) rest (fake_executes e) (fake_closes e) (S (fake_next e)))
  | [] =>
      (inr (fake_next e),
       Fake (fake_clock e) [] (fake_executes e) (fake_closes e) (S (fake_next e)))
  end.

Definition fake_execute (e : fake_engine) : (string + cursor) * fake_engine :=
  match fake_executes e with
  | Some msg :: rest =>
      (inl msg, Fake (fake_clock e) (fake_connects e) rest (fake_closes e) (fake_next e))
  | None :: rest =>
      (inr one_row, Fake (fake_clock e) (fake_connects e) rest (fake_closes e) (fake_next e))
  | [] => (inr one_row, e)
  end.

Definition fake_close (e : fake_engine) : option string * fake_engine :=
  match fake_closes e with
  | r :: rest =>
      (r, Fake (fake_clock e) (fake_connects e) (fake_executes e) rest (fake_next e))
  | [] => (None, e)
  end.

Definition fake_sleep (secs : Z) (e : fake_engine) : fake_engine :=
  Fake (fake_clock e + secs) (fake_connects e) (fake_executes e) (fake_closes e)
       (fake_next e).

#[export] Instance fake_engine_ops : Engine fake_engine := {
  time_time := fake_clock;
  duckdb_connect := fun _ _ _ => fake_connect;
  conn_execute := fun _ _ => fake_execute;
  conn_close := fun _ => fake_close;
  asyncio_sleep := fake_sleep
}.

(** Rendering is outside the core; the fake one joins the cells. *)
Definition fake_tabulate (rows : list (list string)) (hdrs : list string) : string :=
  String.concat "|" hdrs ++ newline ++ String.concat newline (map (String.concat "|") rows).

(** ** Clients and inputs used in the concrete runs *)

Definition fresh_process (e : fake_engine) (env : gmap string string) : state fake_engine :=
  State blank e env [].

Definition env_with_token : gmap string string := {["motherduck_token" := "tok123"]}.

(** A process about to build a client, with and without the credential in
    its environment. *)
Definition boot : state fake_engine := fresh_process (Fake 0 [] [] [] 0%nat) ∅.

Definition boot_with_env_token : state fake_engine :=
  fresh_process (Fake 0 [] [] [] 0%nat) env_with_token.

Definition boot_with_other_token : state fake_engine :=
  fresh_process (Fake 0 [] [] [] 0%nat) {["motherduck_token" := "from_env"]}.

(** The client [__init__] builds for target ["md:"] and credential
    ["tok123"]; it holds handle 0. *)
Definition md_client : DatabaseClient :=
  self (snd (__init__ "0.6.2" (Some "md:") (Some "tok123") None false false boot)).

(** That client when its handle is dead and the next three connection
    attempts fail. *)
Definition dead_handle_process : state fake_engine :=
  State md_client (Fake 100 [Some "a"; Some "b"; Some "c"] [Some "dead"] [] 1%nat) ∅ [].

(** The same client later on: the handle is still dead, the engine
    accepts connections again. *)
Definition later_process : state fake_engine :=
  State md_client (Fake 200 [] [Some "still dead"] [] 1%nat) ∅ [].

(** The same client with a live handle at clock reading [t]. *)
Definition healthy_process (t : Z) : state fake_engine :=
  State md_client (Fake t [] [] [] 1%nat) ∅ [].

(** A client built in local read-only mode, then asked a query that the
    engine rejects. *)
Definition ro_built : state fake_engine :=
  snd (__init__ "0.6.2" (Some "/data/file.db") None None false true boot).

Definition ro_rejected_query : state fake_engine :=
  State (self ro_built) (Fake 50 [] [Some "syntax error"] [] 5%nat) ∅ [].


Definition single_attach : string := "single_attach=true".

(** The credential in effect: the explicit argument when it is true,
    else the environment variable when that is true. *)
Definition effective_token (environ : gmap string string) (motherduck_token : option string)
  : option string :=
  match nonempty motherduck_token with
  | Some token => Some token
  | None => nonempty (os_getenv environ "motherduck_token")
  end.

(** The mode parameter that resolution embeds: only next to an explicit
    credential, and only in SaaS mode. *)
Definition mode_parameter (motherduck_token : option string) (saas_mode : bool) : string :=
  match nonempty motherduck_token with
  | Some _ => if saas_mode then "&saas_mode=true" else ""
  | None => ""
  end.

(** ** Vocabulary of the supervisor properties *)

(** [h] is closed somewhere in [evs]. *)
Definition closes (h : handle) (evs : list event) : bool :=
  existsb (fun ev => match ev with EvClose h' _ => Nat.eqb h h' | _ => false end) evs.

(** Every handle that [evs] opens is closed later in [evs]. *)
Fixpoint released (evs : list event) : bool :=
  match evs with
  | [] => true
  | EvConnect _ _ (inr h) :: rest => closes h rest && released rest
  | _ :: rest => released rest
  end.

(** The client keeps one long-lived connection: it is not in the
    local read-only mode that [_initialize_connection] tests for. *)
Definition persistent (c : DatabaseClient) : Prop :=
  db_kind_eqb (db_type c) duckdb && _read_only c = false.

(** The engine calls of a reconnection whose attempts fail with the
    messages [fails] until a last attempt ends in [final]: after each of
    the failures a sleep, [delay * 2 ^ attempt] long. *)
Fixpoint backoff_events (path : string) (read_only : bool) (delay attempt : Z)
    (fails : list string) (final : string + handle) : list event :=
  match fails with
  | [] => [EvConnect path read_only final]
  | msg :: rest =>
      EvConnect path read_only (inl msg) :: EvSleep (delay * 2 ^ attempt)
        :: backoff_events path read_only delay (attempt + 1) rest final
  end.

Section Runs.

Context {E : Type} {engine_ops : Engine E}.
Variable tabulate : list (list string) -> list string -> string.

(** A call of [_ensure_connection] that went through one reconnection
    cycle from state [s]: the failed probe of the stale handle, its close
    (whatever [close] answered), then at most [_max_retries] attempts with
    the back-off sleeps between them.  The call returns the handle of the
    first attempt that succeeds and stores it; if every attempt fails
    there were exactly [_max_retries] of them and the error of the last
    one is raised, the client being left as it was. *)
Definition reconnect_cycle (c : DatabaseClient) (stale : handle) (s : state E)
    (probe_msg : string) (close_res : option string)
    (out : (exn + option handle) * state E) : Prop :=
  exists (fails : list string) (final : string + handle),
    trace (snd out)
    = (trace s ++ EvExecute stale "SELECT 1" (inl probe_msg) :: EvClose stale close_res
         :: backoff_events (db_path c) (_read_only c) (_retry_delay c) 0 fails final)%list
    /\ Z.of_nat (length fails) < _max_retries c
    /\ match final with
       | inr h => fst out = inr (Some h) /\ self (snd out) = set_conn c (Some h)
       | inl msg =>
           fst out = inl (EngineError msg)
           /\ Z.of_nat (length fails) = _max_retries c - 1
           /\ self (snd out) = c
       end.

(** The client after a sequence of health checks, one per element of
    [worlds]: the process (engine, environment, trace) in which that
    check is invoked. *)
Fixpoint health_checks (c : DatabaseClient) (worlds : list (state E)) : DatabaseClient :=
  match worlds with
  | [] => c
  | w :: rest => health_checks (self (snd (_health_check (with_self w c)))) rest
  end.

(** The engine calls of one query made without a stored connection: the
    connection attempt and, when it gives a handle, the submission of the
    text on that handle and the close of that handle. *)
Definition ephemeral_events (c : DatabaseClient) (sql : string) (e : E) : list event :=
  match duckdb_connect (db_path c) (_connection_config c) (_read_only c) e with
  | (inl msg, _) => [EvConnect (db_path c) (_read_only c) (inl msg)]
  | (inr h, e1) =>
      match conn_execute h sql e1 with
      | (res, e2) =>
          [EvConnect (db_path c) (_read_only c) (inr h);
           EvExecute h sql res;
           EvClose h (fst (conn_close h e2))]
      end
  end.

(** The error [DatabaseClient.query] raises for an exception [e]. *)
Definition query_error (e : exn) : exn := ValueError (query_error_prefix ++ str e).

(** What a query answers once its text has been submitted with outcome
    [res]: the rendered table, or the query error with the engine's
    message. *)
Definition query_answer (res : string + cursor) : exn + string :=
  match res with
  | inl msg => inl (query_error (EngineError msg))
  | inr q => inr (tabulate (fetchall q) (headers q))
  end.

(** The process after the queries [sqls], run one after the other. *)
Fixpoint queries (sqls : list string) (s : state E) : state E :=
  match sqls with
  | [] => s
  | sql :: rest => queries rest (snd (query tabulate sql s))
  end.

End Runs.

(** ** The command line of [lightweight_server.py] *)

Module lightweight_server.

Section Main.

Context {E : Type} {engine_ops : Engine E}.
Variable SERVER_VERSION : string.

(** [a or b] on two [str | None] values. *)
Definition py_or (a b : option string) : option string :=
  match nonempty a with
  | Some _ => a
  | None => b
  end.

(** What [parser.parse_args()] returns. *)
Record Namespace : Type := {
  port : Z;
  host : string;
  transport : string;
  db_path : string;
  motherduck_token : option string;
  home_dir : option string;
  saas_mode : bool;
  read_only : bool
}.

(** [create_optimized_server] up to the creation of the server and of its
    database client (lines 40-61); serving the chosen transport, which
    follows, is outside the model. *)
Definition create_optimized_server (db_path : string)
    (motherduck_token home_dir : option string) (saas_mode read_only : bool)
    (transport : string) (port : Z) (host : string) : M E unit :=
  fastmcp_server.create_fastmcp_server SERVER_VERSION
    {| fastmcp_server.db_path := db_path;
       fastmcp_server.motherduck_token := motherduck_token;
       fastmcp_server.home_dir := home_dir;
       fastmcp_server.saas_mode := saas_mode;
       fastmcp_server.read_only := read_only |}.

(** [main] once the arguments are parsed (lines 93-105). *)
Definition main (args : Namespace) : M E unit :=
  fun s =>
    let motherduck_token :=
      py_or (motherduck_token args) (os_getenv (environ s) "motherduck_token") in
    create_optimized_server (db_path args) motherduck_token (home_dir args)
                            (saas_mode args) (read_only args)
                            (transport args) (port args) (host args) s.

End Main.

End lightweight_server.

(** ** Vocabulary of the further properties *)

(** Nothing of the client differs between [c] and [c'] but, possibly, the
    stored connection and the time of the last health check. *)
Definition same_descriptor (c c' : DatabaseClient) : Prop :=
  _read_only c' = _read_only c
  /\ db_path c' = db_path c
  /\ db_type c' = db_type c
  /\ _health_check_interval c' = _health_check_interval c
  /\ _max_retries c' = _max_retries c
  /\ _retry_delay c' = _retry_delay c
  /\ _connection_config c' = _connection_config c.

(** Seconds slept in [evs]. *)
Fixpoint sleep_total (evs : list event) : Z :=
  match evs with
  | [] => 0
  | EvSleep secs :: rest => secs + sleep_total rest
  | _ :: rest => sleep_total rest
  end.

(** Connection attempts in [evs]. *)
Fixpoint connect_attempts (evs : list event) : Z :=
  match evs with
  | [] => 0
  | EvConnect _ _ _ :: rest => 1 + connect_attempts rest
  | _ :: rest => connect_attempts rest
  end.

(** The object as [__init__] has filled it when it makes the first
    connection (lines 24-53): [path] and [kind] are the resolved target. *)
Definition startup_client (SERVER_VERSION : string) (read_only : bool) (path : string)
    (kind : db_kind) : DatabaseClient :=
  Client read_only
         (if db_kind_eqb kind motherduck then add_single_attach path else path)
         kind None 0 30 3 1
         (if db_kind_eqb kind motherduck then
            <["enable_fsst_vectors" := CfgBool false]>
              (<["enable_external_access" := CfgBool true]>
                 {["custom_user_agent" := CfgStr ("mcp-server-motherduck/" ++ SERVER_VERSION)]})
          else
            {["custom_user_agent" := CfgStr ("mcp-server-motherduck/" ++ SERVER_VERSION)]}).

(** [os.environ] once [__init__] has resolved the target. *)
Definition startup_environ (home_dir : option string) (environ : gmap string string)
  : gmap string string :=
  match nonempty home_dir with
  | Some dir => <["HOME" := dir]> environ
  | None => environ
  end.

Section Startup.

Context {E : Type} {engine_ops : Engine E}.

(** The engine calls of the check that [_initialize_connection] makes for
    a local read-only client. *)
Definition read_only_check_events (c : DatabaseClient) (e : E) : list event :=
  match duckdb_connect (db_path c) (_connection_config c) (_read_only c) e with
  | (inl msg, _) => [EvConnect (db_path c) (_read_only c) (inl msg)]
  | (inr h, e1) =>
      match conn_execute h "SELECT 1" e1 with
      | (inl msg, _) =>
          [EvConnect (db_path c) (_read_only c) (inr h); EvExecute h "SELECT 1" (inl msg)]
      | (inr q, e2) =>
          [EvConnect (db_path c) (_read_only c) (inr h); EvExecute h "SELECT 1" (inr q);
           EvClose h (fst (conn_close h e2))]
      end
  end.

End Startup.

(** Inputs of the further concrete runs. *)

(** A writable local client, built by [__init__]; it holds handle 0. *)
Definition rw_client : DatabaseClient :=
  self (snd (__init__ "0.6.2" (Some "/data/file.db") None None false false boot)).

(** That client within the health-check interval, the engine rejecting
    the next statement. *)
Definition rw_rejecting_process : state fake_engine :=
  State rw_client (Fake 10 [] [Some "syntax error"] [] 1%nat) ∅ [].

(** The persistent client with a dead handle; the engine accepts the
    next connection. *)
Definition recovering_process : state fake_engine :=
  State md_client (Fake 100 [] [Some "dead"] [] 1%nat) ∅ [].

(** A process whose engine refuses connections. *)
Definition refusing_boot : state fake_engine :=
  fresh_process (Fake 0 [Some "unreachable"] [] [] 0%nat) ∅.

(** A process whose engine opens the file but fails the first statement. *)
Definition failing_probe_boot : state fake_engine :=
  fresh_process (Fake 0 [] [Some "corrupt"] [] 0%nat) ∅.

Definition cli_saas_args : lightweight_server.Namespace :=
  {| lightweight_server.port := 8000;
     lightweight_server.host := "0.0.0.0";
     lightweight_server.transport := "stdio";
     lightweight_server.db_path := "md:";
     lightweight_server.motherduck_token := None;
     lightweight_server.home_dir := None;
     lightweight_server.saas_mode := true;
     lightweight_server.read_only := false |}.

(** * Properties *)

(** ** Strings *)

Lemma append_assoc (a b c : string) : (a ++ b) ++ c = a ++ (b ++ c).
Proof. induction a as [|x a IH]; simpl; [reflexivity | now rewrite IH]. Qed.

Lemma is_prefix_refl_app (p s : string) : is_prefix p (p ++ s) = true.
Proof.
  induction p as [|x p IH]; simpl; [reflexivity |].
  now rewrite Ascii.eqb_refl, IH.
Qed.

Lemma contains_app_r (sub a b : string) :
  contains sub b = true -> contains sub (a ++ b) = true.
Proof.
  intros H. induction a as [|x a IH]; simpl; [exact H |].
  rewrite IH. apply orb_true_r.
Qed.

Lemma contains_self_app (sub b : string) : contains sub (sub ++ b) = true.
Proof.
  destruct sub as [|x sub]; [destruct b; reflexivity |].
  cbn [append contains]. change (String x (sub ++ b)) with (String x sub ++ b).
  now rewrite is_prefix_refl_app.
Qed.

(** A character that is not in the pattern cuts the text in two: no
    occurrence lies across it. *)
Lemma is_prefix_separator (sub a b : string) (c : ascii) :
  has_char c sub = false ->
  is_prefix sub (a ++ String c b) = is_prefix sub a.
Proof.
  revert a. induction sub as [|x sub IH]; intros a Hc; [reflexivity |].
  simpl in Hc. apply orb_false_iff in Hc as [Hx Hsub].
  destruct a as [|y a]; simpl.
  - now rewrite Hx.
  - now rewrite (IH a Hsub).
Qed.

Lemma occurrences_separator (sub a b : string) (c : ascii) :
  has_char c sub = false -> sub <> EmptyString ->
  occurrences sub (a ++ String c b) = (occurrences sub a + occurrences sub b)%nat.
Proof.
  intros Hc Hne. induction a as [|y a IH].
  - cbn [append]. cbn [occurrences].
    change (String c b) with (EmptyString ++ String c b) at 1.
    rewrite (is_prefix_separator _ _ _ _ Hc).
    destruct sub; [congruence | reflexivity].
  - change (String y a ++ String c b) with (String y (a ++ String c b)).
    cbn [occurrences]. rewrite IH.
    change (String y (a ++ String c b)) with (String y a ++ String c b).
    rewrite (is_prefix_separator _ _ _ _ Hc). lia.
Qed.

(** A character other than the first of the pattern starts no occurrence. *)
Lemma occurrences_skip (x c : ascii) (sub s : string) :
  Ascii.eqb x c = false ->
  occurrences (String x sub) (String c s) = occurrences (String x sub) s.
Proof. intros H. cbn [occurrences is_prefix]. now rewrite H. Qed.

(** ** The connection string of a remote target *)

Lemma add_single_attach_query (raw rest : string) :
  add_single_attach (raw ++ String "?" rest)
  = raw ++ String "?" (rest ++ "&single_attach=true").
Proof.
  unfold add_single_attach.
  rewrite (contains_app_r "?" raw (String "?" rest)) by reflexivity.
  now rewrite append_assoc.
Qed.

Lemma occurrences_token_parameter (cred : string) :
  occurrences single_attach ("motherduck_token=" ++ cred) = occurrences single_attach cred.
Proof.
  unfold single_attach. cbn [append].
  repeat (rewrite occurrences_skip by reflexivity). reflexivity.
Qed.

Lemma occurrences_remote_path (raw cred mode : string) :
  mode = "" \/ mode = "&saas_mode=true" ->
  occurrences single_attach
    (raw ++ String "?" (("motherduck_token=" ++ cred ++ mode) ++ "&single_attach=true"))
  = (occurrences single_attach raw + occurrences single_attach cred + 1)%nat.
Proof.
  intros Hmode.
  rewrite occurrences_separator by (reflexivity || discriminate).
  assert (Hsplit : exists rest,
             ("motherduck_token=" ++ cred ++ mode) ++ "&single_attach=true"
             = ("motherduck_token=" ++ cred) ++ String "&" rest
             /\ occurrences single_attach rest = 1%nat).
  { destruct Hmode as [-> | ->].
    - exists "single_attach=true". split; [| reflexivity].
      now rewrite !append_assoc.
    - exists "saas_mode=true&single_attach=true". split; [| reflexivity].
      now rewrite !append_assoc. }
  destruct Hsplit as (rest & -> & Hrest).
  rewrite occurrences_separator by (reflexivity || discriminate).
  rewrite occurrences_token_parameter, Hrest. lia.
Qed.

(** ** Frame lemmas: what the engine calls leave alone *)

Ltac unfold_monad :=
  unfold execute_on, close_on in *;
  unfold bind, ret, raise, try_except, try_finally, get_self, put_self,
         with_self, now, connect, execute, close_handle, sleep in *.

Ltac engine_case :=
  match goal with
  | |- context [duckdb_connect ?p ?c ?r ?e] =>
      let H := fresh "Hconnect" in
      destruct (duckdb_connect p c r e) as [[?|?] ?] eqn:H
  | |- context [conn_execute ?h ?q ?e] =>
      let H := fresh "Hexecute" in
      destruct (conn_execute h q e) as [[?|?] ?] eqn:H
  | |- context [conn_close ?h ?e] =>
      let H := fresh "Hclose" in
      destruct (conn_close h e) as [[?|] ?] eqn:H
  end.

Ltac run := unfold_monad; cbn; repeat (engine_case; cbn).

Section Properties.

Context {E : Type} {engine_ops : Engine E}.
Variable SERVER_VERSION : string.
Variable tabulate : list (list string) -> list string -> string.

Lemma initialize_connection_self (s : state E) :
  self (snd (_initialize_connection s)) = self s.
Proof.
  unfold _initialize_connection. unfold_monad. cbn.
  destruct (db_kind_eqb (db_type (self s)) duckdb && _read_only (self s));
    repeat (engine_case; cbn); reflexivity.
Qed.

(** What [__init__] leaves in [self] once the target is resolved, whether
    or not the first connection then succeeds. *)
Lemma init_fields (raw : string) (token home : option string) (saas ro : bool)
    (s : state E) (path : string) (kind : db_kind) :
  _resolve_db_path_type (environ s) raw token saas = inr (path, kind) ->
  let c := self (snd (__init__ SERVER_VERSION (Some raw) token home saas ro s)) in
  db_path c = (if db_kind_eqb kind motherduck then add_single_attach path else path)
  /\ db_type c = kind
  /\ _read_only c = ro
  /\ _last_health_check c = 0
  /\ _health_check_interval c = 30
  /\ _max_retries c = 3
  /\ _retry_delay c = 1.
Proof.
  intros Hres. unfold __init__. rewrite Hres. cbv zeta.
  match goal with
  | |- context [bind _ _ ?s0] => set (s1 := s0)
  end.
  cbv [bind].
  pose proof (initialize_connection_self s1) as Hself.
  destruct (_initialize_connection s1) as [[e | new_conn] s2]; cbn [snd] in Hself.
  - cbn [snd]. rewrite Hself. repeat split; reflexivity.
  - cbv [get_self put_self with_self ret snd]. cbn [self]. unfold set_conn.
    rewrite Hself. repeat split; reflexivity.
Qed.

(** A target that fails resolution stops [__init__] before anything is
    built or sent to the engine. *)
Lemma init_resolution_error (raw : string) (token home : option string) (saas ro : bool)
    (s : state E) (e : exn) :
  _resolve_db_path_type (environ s) raw token saas = inl e ->
  __init__ SERVER_VERSION (Some raw) token home saas ro s = (inl e, s).
Proof. intros Hres. unfold __init__. now rewrite Hres. Qed.

(** ** Target resolution *)

Lemma resolve_local (environ0 : gmap string string) (raw : string) (token : option string)
    (saas : bool) :
  startswith raw "md:" = false ->
  _resolve_db_path_type environ0 raw token saas = inr (raw, duckdb).
Proof.
  intros Hlocal. unfold _resolve_db_path_type. rewrite Hlocal.
  destruct (String.eqb raw ":memory:"); reflexivity.
Qed.

(** C9.  A target outside the [md:] scheme resolves to the local engine
    with the raw target as connection string, whatever the credential
    argument and the environment hold; resolution returns (it does not
    raise), and [__init__] stores that string and kind unchanged. *)
Theorem local_target_resolves_unchanged
    (environ0 : gmap string string) (raw : string) (token home : option string)
    (saas ro : bool) (s : state E) :
  startswith raw "md:" = false ->
  _resolve_db_path_type environ0 raw token saas = inr (raw, duckdb)
  /\ db_path (self (snd (__init__ SERVER_VERSION (Some raw) token home saas ro s))) = raw
  /\ db_type (self (snd (__init__ SERVER_VERSION (Some raw) token home saas ro s))) = duckdb.
Proof.
  intros Hlocal. split; [now apply resolve_local |].
  destruct (init_fields raw token home saas ro s raw duckdb
              (resolve_local _ _ _ _ Hlocal)) as (Hp & Hk & _).
  split; assumption.
Qed.

(** C3.  For target ["md:"] and explicit credential ["tok123"] the
    connection string that [__init__] stores is
    ["md:?motherduck_token=tok123&single_attach=true"] without SaaS mode
    and ["md:?motherduck_token=tok123&saas_mode=true&single_attach=true"]
    with it, for every engine; the single-attach step appends
    [single_attach=true] after ['&'] when the string already has a ['?'],
    after ['?'] otherwise. *)
Theorem md_tok123_connection_strings (home : option string) (ro : bool) (s : state E)
    (p : string) :
  db_path (self (snd (__init__ SERVER_VERSION (Some "md:") (Some "tok123") home false ro s)))
  = "md:?motherduck_token=tok123&single_attach=true"
  /\ db_path (self (snd (__init__ SERVER_VERSION (Some "md:") (Some "tok123") home true ro s)))
     = "md:?motherduck_token=tok123&saas_mode=true&single_attach=true"
  /\ add_single_attach p
     = p ++ (if contains "?" p then "&" else "?") ++ "single_attach=true".
Proof.
  split; [| split].
  - now destruct (init_fields "md:" (Some "tok123") home false ro s
                    "md:?motherduck_token=tok123" motherduck eq_refl) as (-> & _).
  - now destruct (init_fields "md:" (Some "tok123") home true ro s
                    "md:?motherduck_token=tok123&saas_mode=true" motherduck eq_refl)
      as (-> & _).
  - unfold add_single_attach. destruct (contains "?" p); reflexivity.
Qed.

(** Resolution of a remote target for which a credential is in effect. *)
Lemma resolve_remote_with_credential (environ0 : gmap string string) (raw cred : string)
    (token : option string) (saas : bool) :
  startswith raw "md:" = true ->
  effective_token environ0 token = Some cred ->
  _resolve_db_path_type environ0 raw token saas
  = inr (raw ++ String "?" ("motherduck_token=" ++ cred ++ mode_parameter token saas),
         motherduck).
Proof.
  intros Hmd Hcred. unfold _resolve_db_path_type, effective_token, mode_parameter in *.
  rewrite Hmd. destruct (nonempty token) as [t |].
  - injection Hcred as ->. destruct saas; [reflexivity |].
    cbn [append]. do 3 f_equal. clear. induction cred; cbn; congruence.
  - rewrite Hcred. cbn [append]. do 3 f_equal. clear. induction cred; cbn; congruence.
Qed.

(** C2, the branch that does what the claim says: with an explicit
    credential and SaaS mode, both parameters are in the resolved string. *)
Lemma saas_mode_with_explicit_token (environ0 : gmap string string) (raw cred : string)
    (token : option string) :
  startswith raw "md:" = true ->
  nonempty token = Some cred ->
  exists path,
    _resolve_db_path_type environ0 raw token true = inr (path, motherduck)
    /\ contains ("motherduck_token=" ++ cred) path = true
    /\ contains "saas_mode=true" path = true.
Proof.
  intros Hmd Htok. unfold _resolve_db_path_type. rewrite Hmd, Htok.
  eexists; split; [reflexivity |]. split.
  - apply contains_app_r.
    change ("?motherduck_token=" ++ cred ++ "&saas_mode=true")
      with ("?" ++ ("motherduck_token=" ++ cred ++ "&saas_mode=true")).
    apply contains_app_r. rewrite <- append_assoc. apply contains_self_app.
  - apply contains_app_r.
    change ("?motherduck_token=" ++ cred ++ "&saas_mode=true")
      with ("?motherduck_token=" ++ (cred ++ "&" ++ "saas_mode=true")).
    do 2 apply contains_app_r.
    apply contains_app_r. reflexivity.
Qed.

(** C4, as the code has it.  For a remote target: without a credential in
    effect [__init__] raises the error that names [motherduck_token] and
    leaves the process as it was (nothing built, nothing sent to the
    engine); with a credential in effect (the explicit argument before the
    environment variable) the stored connection string is the target, the
    credential parameter, the mode parameter if any, and the single-attach
    directive appended once at the end, so that it contains the credential
    and holds the directive once more than the target and the credential
    already did. *)
Theorem remote_target_credential_and_single_attach
    (raw : string) (token home : option string) (saas ro : bool) (s : state E) :
  startswith raw "md:" = true ->
  match effective_token (environ s) token with
  | None =>
      _resolve_db_path_type (environ s) raw token saas = inl (ValueError missing_token_message)
      /\ __init__ SERVER_VERSION (Some raw) token home saas ro s
         = (inl (ValueError missing_token_message), s)
      /\ contains "motherduck_token" missing_token_message = true
  | Some cred =>
      let path := db_path (self (snd (__init__ SERVER_VERSION (Some raw) token home saas ro s))) in
      (exists mode,
          (mode = "" \/ mode = "&saas_mode=true")
          /\ path = raw ++ "?motherduck_token=" ++ cred ++ mode ++ "&single_attach=true")
      /\ contains cred path = true
      /\ occurrences single_attach path
         = (occurrences single_attach raw + occurrences single_attach cred + 1)%nat
  end.
Proof.
  intros Hmd. destruct (effective_token (environ s) token) as [cred |] eqn:Hcred.
  - pose proof (resolve_remote_with_credential _ _ _ _ saas Hmd Hcred) as Hres.
    destruct (init_fields raw token home saas ro s _ _ Hres) as (Hpath & _).
    cbn [db_kind_eqb] in Hpath. rewrite add_single_attach_query in Hpath.
    assert (Hmode : mode_parameter token saas = ""
                    \/ mode_parameter token saas = "&saas_mode=true").
    { unfold mode_parameter. destruct (nonempty token); [destruct saas |]; auto. }
    cbv zeta. rewrite Hpath. split; [| split].
    + exists (mode_parameter token saas). split; [exact Hmode |].
      cbn [append]. now rewrite !append_assoc.
    + apply contains_app_r.
      change (String "?" (("motherduck_token=" ++ cred ++ mode_parameter token saas)
                            ++ "&single_attach=true"))
        with ("?motherduck_token=" ++ (cred ++ mode_parameter token saas)
                            ++ "&single_attach=true").
      apply contains_app_r. rewrite append_assoc. apply contains_self_app.
    + now apply occurrences_remote_path.
  - assert (Hres : _resolve_db_path_type (environ s) raw token saas
                   = inl (ValueError missing_token_message)).
    { unfold _resolve_db_path_type, effective_token in *. rewrite Hmd.
      destruct (nonempty token); [discriminate |]. now rewrite Hcred. }
    split; [exact Hres |]. split; [| reflexivity].
    now apply init_resolution_error.
Qed.

(** ** Reconnection *)

Lemma initialize_connection_persistent (s : state E) :
  persistent (self s) ->
  _initialize_connection s
  = match duckdb_connect (db_path (self s)) (_connection_config (self s))
                         (_read_only (self s)) (engine s) with
    | (r, e') =>
        (match r with inl m => inl (EngineError m) | inr h => inr (Some h) end,
         State (self s) e' (environ s)
               (trace s ++ [EvConnect (db_path (self s)) (_read_only (self s)) r]))
    end.
Proof.
  unfold persistent, _initialize_connection. intros Hmode.
  unfold bind at 1. unfold get_self at 1. rewrite Hmode.
  run; reflexivity.
Qed.

Lemma for_each_cons {A : Type} (x : A) (xs : list A) (body : A -> M E loop_ctl)
    (s : state E) :
  for_each (x :: xs) body s
  = match body x s with
    | (inl e, s') => (inl e, s')
    | (inr Break, s') => (inr tt, s')
    | (inr Continue, s') => for_each xs body s'
    end.
Proof.
  cbn [for_each]. unfold bind.
  destruct (body x s) as [[e | []] s']; reflexivity.
Qed.

(** One turn of the retry loop of a persistent client. *)
Lemma reconnect_attempt_persistent (attempt : Z) (s : state E) :
  persistent (self s) ->
  reconnect_attempt attempt s
  = let c := self s in
    match duckdb_connect (db_path c) (_connection_config c) (_read_only c) (engine s) with
    | (inr h, e') =>
        (inr Break,
         State (set_conn c (Some h)) e' (environ s)
               (trace s ++ [EvConnect (db_path c) (_read_only c) (inr h)]))
    | (inl msg, e') =>
        if attempt <? _max_retries c - 1 then
          (inr Continue,
           State c (asyncio_sleep (_retry_delay c * 2 ^ attempt) e') (environ s)
                 ((trace s ++ [EvConnect (db_path c) (_read_only c) (inl msg)])
                    ++ [EvSleep (_retry_delay c * 2 ^ attempt)]))
        else
          (inl (EngineError msg),
           State c e' (environ s)
                 (trace s ++ [EvConnect (db_path c) (_read_only c) (inl msg)]))
    end.
Proof.
  intros Hmode. unfold reconnect_attempt, try_except. unfold bind at 1.
  rewrite (initialize_connection_persistent s Hmode). cbv zeta.
  destruct (duckdb_connect _ _ _ _) as [[msg | h] e']; [| reflexivity].
  unfold_monad. cbn [self with_self].
  destruct (attempt <? _max_retries (self s) - 1); reflexivity.
Qed.

(** The retry loop from attempt [k] on, [S len] attempts being left. *)
Lemma reconnect_loop_spec (c : DatabaseClient) (len : nat) :
  forall (k : nat) (s : state E) (r : exn + unit) (s' : state E),
    persistent c -> self s = c ->
    Z.of_nat (k + S len) = _max_retries c ->
    for_each (map Z.of_nat (seq k (S len))) reconnect_attempt s = (r, s') ->
    exists (fails : list string) (final : string + handle),
      trace s'
      = (trace s ++ backoff_events (db_path c) (_read_only c) (_retry_delay c)
                                   (Z.of_nat k) fails final)%list
      /\ (length fails <= len)%nat
      /\ environ s' = environ s
      /\ match final with
         | inr h => r = inr tt /\ self s' = set_conn c (Some h)
         | inl msg => r = inl (EngineError msg) /\ length fails = len /\ self s' = c
         end.
Proof.
  induction len as [| len IH]; intros k s r s' Hmode Hself Hmax Hrun;
    cbn [seq map] in Hrun; rewrite for_each_cons in Hrun;
    rewrite reconnect_attempt_persistent in Hrun by now rewrite Hself.
  all: cbv zeta in Hrun; rewrite Hself in Hrun.
  all: destruct (duckdb_connect _ _ _ _) as [[msg | h] e'].
  all: try (injection Hrun as <- <-; exists [], (inr h); cbn;
            repeat split; (reflexivity || lia)).
  - replace (Z.of_nat k <? _max_retries c - 1) with false in Hrun by lia.
    injection Hrun as <- <-. exists [], (inl msg). cbn. repeat split; reflexivity.
  - replace (Z.of_nat k <? _max_retries c - 1) with true in Hrun by lia.
    apply IH in Hrun; [| assumption | reflexivity | lia].
    destruct Hrun as (fails & final & Htrace & Hlen & Henv & Hfinal).
    exists (msg :: fails), final. cbn [backoff_events length trace environ] in *.
    rewrite Htrace, <- !app_assoc.
    replace (Z.of_nat (S k)) with (Z.of_nat k + 1) by lia.
    split; [reflexivity |]. split; [lia |]. split; [assumption |].
    destruct final as [m' | h']; [| assumption].
    destruct Hfinal as (? & ? & ?). repeat split; [assumption | lia | assumption].
Qed.

(** ** Health check *)

(** [_health_check], case by case. *)
Lemma health_check_cases (s : state E) :
  _health_check s
  = match conn (self s) with
    | None => (inr true, s)
    | Some h =>
        if time_time (engine s) - _last_health_check (self s)
           <? _health_check_interval (self s)
        then (inr true, s)
        else
          match conn_execute h "SELECT 1" (engine s) with
          | (inr q, e') =>
              (inr true,
               State (set_last_health_check (self s) (time_time (engine s))) e' (environ s)
                     (trace s ++ [EvExecute h "SELECT 1" (inr q)]))
          | (inl msg, e') =>
              (inr false,
               State (self s) e' (environ s) (trace s ++ [EvExecute h "SELECT 1" (inl msg)]))
          end
    end.
Proof.
  unfold _health_check. unfold_monad. cbn [self].
  destruct (conn (self s)) as [h |]; [| reflexivity].
  destruct (_ <? _); [reflexivity |].
  destruct (conn_execute _ _ _) as [[msg | q] e']; reflexivity.
Qed.

(** A failed health check of a persistent client is followed by one
    reconnection cycle. *)
Lemma ensure_connection_reconnects (s : state E) (stale : handle) (msg : string) (e1 : E) :
  conn (self s) = Some stale ->
  persistent (self s) ->
  0 < _max_retries (self s) ->
  _health_check_interval (self s) <= time_time (engine s) - _last_health_check (self s) ->
  conn_execute stale "SELECT 1" (engine s) = (inl msg, e1) ->
  reconnect_cycle (self s) stale s msg (fst (conn_close stale e1)) (_ensure_connection s).
Proof.
  intros Hconn Hmode Hmax Helapsed Hprobe.
  unfold _ensure_connection. unfold bind at 1. unfold get_self at 1. rewrite Hconn.
  unfold bind at 1. rewrite health_check_cases, Hconn.
  replace (_ <? _) with false by lia. rewrite Hprobe. cbn [negb].
  unfold bind at 1. unfold bind at 1. unfold try_except, close_handle. cbn [engine self trace environ].
  set (c := self s) in *.
  destruct (conn_close stale e1) as [cr e2]. cbn [fst].
  assert (Hstep : forall s2 : state E,
             self s2 = c ->
             trace s2
             = ((trace s ++ [EvExecute stale "SELECT 1" (inl msg)]) ++ [EvClose stale cr])%list ->
             reconnect_cycle c stale s msg cr
               (match (c0 <- get_self ;;
                       for_each (range (_max_retries c0)) reconnect_attempt) s2 with
                | (inl e, s') => (inl e, s')
                | (inr _, s') => (c1 <- get_self ;; ret (conn c1)) s'
                end)).
  { intros s2 Hself2 Htrace2. unfold bind at 1. unfold get_self at 1. rewrite Hself2.
    unfold range. destruct (Z.to_nat (_max_retries c)) as [| len] eqn:Hlen; [lia |].
    destruct (for_each _ _ s2) as [r s'] eqn:Hrun.
    apply (reconnect_loop_spec c len 0 s2 r s' Hmode Hself2) in Hrun; [| lia].
    destruct Hrun as (fails & final & Htrace & Hfails & _ & Hfinal).
    exists fails, final.
    destruct final as [m' | h'].
    - destruct Hfinal as (-> & Hn & Hc). cbn [fst snd].
      rewrite Htrace, Htrace2, <- !app_assoc.
      repeat split; (reflexivity || lia || assumption).
    - destruct Hfinal as (-> & Hc). unfold_monad. cbn [fst snd self].
      rewrite Htrace, Htrace2, Hc, <- !app_assoc.
      repeat split; (reflexivity || lia). }
  destruct cr as [close_msg |]; apply Hstep; reflexivity.
Qed.

(** A health check touches no field but the time of the last check,
    which it never moves back. *)
Lemma health_check_step (c : DatabaseClient) (w : state E) :
  let c' := self (snd (_health_check (with_self w c))) in
  conn c' = conn c
  /\ _health_check_interval c' = _health_check_interval c
  /\ (0 <= _health_check_interval c -> _last_health_check c <= _last_health_check c').
Proof.
  rewrite health_check_cases. cbn [self with_self engine].
  destruct (conn c) as [h |] eqn:Hconn; cbn [snd self];
    [| rewrite ?Hconn; auto with zarith].
  destruct (_ <? _) eqn:Hwindow; cbn [snd self]; [rewrite ?Hconn; auto with zarith |].
  apply Z.ltb_ge in Hwindow.
  destruct (conn_execute _ _ _) as [[msg | q] e']; cbn; rewrite ?Hconn;
    repeat split; try reflexivity; lia.
Qed.

Lemma health_checks_invariant (worlds : list (state E)) :
  forall c : DatabaseClient,
    let c' := health_checks c worlds in
    conn c' = conn c
    /\ _health_check_interval c' = _health_check_interval c
    /\ (0 <= _health_check_interval c -> _last_health_check c <= _last_health_check c').
Proof.
  induction worlds as [| w rest IH]; intros c; cbn [health_checks].
  - auto with zarith.
  - destruct (health_check_step c w) as (Hc & Hi & Hl).
    destruct (IH (self (snd (_health_check (with_self w c))))) as (Hc' & Hi' & Hl').
    cbv zeta. rewrite Hc', Hi', Hc, Hi. repeat split. intros Hpos.
    specialize (Hl Hpos). rewrite Hi in Hl'. specialize (Hl' Hpos). lia.
Qed.

(** C5.  Once a check of a persistent handle has probed the engine with
    success at clock reading [t], every later check of that client invoked
    at a reading [t'] with [t' - t] below the interval, whatever checks
    came in between, answers healthy and leaves the engine, the trace and
    the client untouched.  A check sends the probe [SELECT 1] only when
    the interval has elapsed since the recorded time (and the client holds
    a handle), and a probe that succeeds records the reading of its check
    as the new time of the last check. *)
Theorem health_check_within_interval_skips_probe
    (c : DatabaseClient) (stale : handle) (w w' s0 : state E) (q : cursor) (e1 : E)
    (between : list (state E)) :
  conn c = Some stale ->
  0 <= _health_check_interval c ->
  _health_check_interval c <= time_time (engine w) - _last_health_check c ->
  conn_execute stale "SELECT 1" (engine w) = (inr q, e1) ->
  time_time (engine w') - time_time (engine w) < _health_check_interval c ->
  let first := _health_check (with_self w c) in
  let c1 := self (snd first) in
  let c2 := health_checks c1 between in
  fst first = inr true
  /\ trace (snd first) = (trace w ++ [EvExecute stale "SELECT 1" (inr q)])%list
  /\ _last_health_check c1 = time_time (engine w)
  /\ _health_check (with_self w' c2) = (inr true, with_self w' c2)
  /\ trace (snd (_health_check s0))
     = (trace s0 ++
        match conn (self s0) with
        | Some h =>
            if time_time (engine s0) - _last_health_check (self s0)
               <? _health_check_interval (self s0)
            then []
            else [EvExecute h "SELECT 1" (fst (conn_execute h "SELECT 1" (engine s0)))]
        | None => []
        end)%list.
Proof.
  intros Hconn Hpos Helapsed Hprobe Hwithin first c1 c2.
  assert (Hfirst : first
                   = (inr true,
                      State (set_last_health_check c (time_time (engine w))) e1 (environ w)
                            (trace w ++ [EvExecute stale "SELECT 1" (inr q)]))).
  { subst first. rewrite health_check_cases. cbn [self with_self engine environ trace].
    rewrite Hconn. replace (_ <? _) with false by lia. now rewrite Hprobe. }
  assert (Hc1 : c1 = set_last_health_check c (time_time (engine w))).
  { subst c1. now rewrite Hfirst. }
  split; [now rewrite Hfirst |]. split; [now rewrite Hfirst |].
  split; [now rewrite Hc1 |]. split.
  - destruct (health_checks_invariant between c1) as (Hc & Hi & Hl).
    fold c2 in Hc, Hi, Hl. rewrite Hc1 in Hc, Hi, Hl.
    cbn [set_last_health_check conn _health_check_interval _last_health_check] in Hc, Hi, Hl.
    specialize (Hl Hpos).
    rewrite health_check_cases. cbn [self with_self engine].
    rewrite Hc, Hconn, Hi. replace (_ <? _) with true by lia. reflexivity.
  - rewrite health_check_cases.
    destruct (conn (self s0)) as [h |]; cbn [snd]; [| now rewrite app_nil_r].
    destruct (_ <? _); cbn [snd]; [now rewrite app_nil_r |].
    destruct (conn_execute h "SELECT 1" (engine s0)) as [[msg | q'] e']; reflexivity.
Qed.

Lemma ensure_connection_healthy (s s' : state E) (h : handle) :
  conn (self s) = Some h ->
  _health_check s = (inr true, s') ->
  _ensure_connection s = (inr (conn (self s')), s').
Proof.
  intros Hconn Hcheck. unfold _ensure_connection.
  unfold bind at 1. unfold get_self at 1. rewrite Hconn.
  unfold bind at 1. rewrite Hcheck. reflexivity.
Qed.

(** A call that ends in an error leaves the client as it found it. *)
Lemma ensure_connection_error_keeps_self (s s1 : state E) (stale : handle) (e : exn) :
  conn (self s) = Some stale ->
  persistent (self s) ->
  0 < _max_retries (self s) ->
  _ensure_connection s = (inl e, s1) ->
  self s1 = self s.
Proof.
  intros Hconn Hmode Hmax Hrun.
  pose proof (health_check_cases s) as Hcheck. rewrite Hconn in Hcheck.
  destruct (_ <? _) eqn:Hwindow in Hcheck.
  { rewrite (ensure_connection_healthy _ _ _ Hconn Hcheck) in Hrun. discriminate. }
  destruct (conn_execute stale "SELECT 1" (engine s)) as [[msg | q] e1] eqn:Hprobe.
  2: { rewrite (ensure_connection_healthy _ _ _ Hconn Hcheck) in Hrun. discriminate. }
  assert (Helapsed : _health_check_interval (self s)
                     <= time_time (engine s) - _last_health_check (self s)) by lia.
  destruct (ensure_connection_reconnects s stale msg e1 Hconn Hmode Hmax Helapsed Hprobe)
    as (fails & final & _ & _ & Hfinal).
  rewrite Hrun in Hfinal. cbn [fst snd] in Hfinal.
  destruct final as [m' | h']; [tauto |]. destruct Hfinal as [Habs _]. discriminate.
Qed.

(** C1.  A persistent client whose health check fails (the probe of the
    interval-expired handle raises) closes the stale handle, whatever
    [close] answers, and then makes at most [_max_retries] connection
    attempts; the first one that succeeds is stored and returned; when all
    [_max_retries] attempts fail the error of the last one is raised, and
    the attempts are separated by sleeps of [_retry_delay * 2 ^ attempt]. *)
Theorem failed_health_check_reconnects_with_backoff
    (s : state E) (stale : handle) (msg : string) (e1 : E) :
  conn (self s) = Some stale ->
  persistent (self s) ->
  0 < _max_retries (self s) ->
  _health_check_interval (self s) <= time_time (engine s) - _last_health_check (self s) ->
  conn_execute stale "SELECT 1" (engine s) = (inl msg, e1) ->
  reconnect_cycle (self s) stale s msg (fst (conn_close stale e1)) (_ensure_connection s).
Proof. apply ensure_connection_reconnects. Qed.

(** C8.  After a call of [_ensure_connection] has raised the exhaustion
    error, the client is what it was before that call: it still holds the
    stale handle and the old time of its last check.  A later call, made
    when the interval has elapsed and the stale handle still fails its
    probe, therefore goes through a whole reconnection cycle again, with
    up to [_max_retries] attempts of its own. *)
Theorem exhausted_reconnection_is_retried_by_next_call
    (s s1 s2 : state E) (stale : handle) (e : exn) (msg2 : string) (e2 : E) :
  conn (self s) = Some stale ->
  persistent (self s) ->
  0 < _max_retries (self s) ->
  _ensure_connection s = (inl e, s1) ->
  self s2 = self s1 ->
  _health_check_interval (self s2) <= time_time (engine s2) - _last_health_check (self s2) ->
  conn_execute stale "SELECT 1" (engine s2) = (inl msg2, e2) ->
  self s1 = self s
  /\ reconnect_cycle (self s) stale s2 msg2 (fst (conn_close stale e2))
                     (_ensure_connection s2).
Proof.
  intros Hconn Hmode Hmax Hfirst Hsame Helapsed Hprobe.
  pose proof (ensure_connection_error_keeps_self _ _ _ _ Hconn Hmode Hmax Hfirst) as Hkept.
  split; [exact Hkept |].
  assert (Heq : self s2 = self s) by congruence.
  rewrite <- Heq in *.
  now apply ensure_connection_reconnects.
Qed.

(** ** Queries *)

(** A query of a client that stores no connection, step by step. *)
Lemma query_ephemeral (s : state E) (sql : string) :
  conn (self s) = None ->
  query tabulate sql s
  = let c := self s in
    match duckdb_connect (db_path c) (_connection_config c) (_read_only c) (engine s) with
    | (inl msg, e1) =>
        (inl (query_error (EngineError msg)),
         State c e1 (environ s) (trace s ++ [EvConnect (db_path c) (_read_only c) (inl msg)]))
    | (inr h, e1) =>
        match conn_execute h sql e1 with
        | (res, e2) =>
            match conn_close h e2 with
            | (cr, e3) =>
                (match cr with
                 | Some close_msg => inl (query_error (EngineError close_msg))
                 | None => query_answer tabulate res
                 end,
                 State c e3 (environ s)
                       (trace s ++ [EvConnect (db_path c) (_read_only c) (inr h);
                                    EvExecute h sql res; EvClose h cr]))
            end
        end
    end.
Proof.
  intros Hconn. unfold query, _execute, _ensure_connection, try_except.
  unfold bind at 1. unfold bind at 1. unfold get_self at 1. rewrite Hconn.
  unfold_monad. cbn [self engine environ trace]. cbv zeta.
  destruct (duckdb_connect _ _ _ _) as [[msg | h] e1]; [reflexivity |].
  cbn [self engine environ trace]. rewrite Hconn.
  destruct (conn_execute h sql e1) as [[msg | q] e2]; cbn [self engine environ trace];
    destruct (conn_close h e2) as [[close_msg |] e3]; cbn [self engine environ trace];
    rewrite <- ?app_assoc; reflexivity.
Qed.

(** In local read-only mode [_initialize_connection] only checks that
    the file opens: it never hands a connection back. *)
Lemma initialize_connection_read_only (s s' : state E) (r : option handle) :
  db_type (self s) = duckdb ->
  _read_only (self s) = true ->
  _initialize_connection s = (inr r, s') ->
  r = None.
Proof.
  intros Hkind Hro. unfold _initialize_connection.
  unfold bind at 1. unfold get_self at 1. rewrite Hkind, Hro. cbn [db_kind_eqb andb].
  run; intros Hrun; congruence.
Qed.

(** A client built read-only on the local engine stores no connection. *)
Lemma init_read_only_no_connection (raw path : string) (token home : option string)
    (saas : bool) (s0 s1 : state E) :
  _resolve_db_path_type (environ s0) raw token saas = inr (path, duckdb) ->
  __init__ SERVER_VERSION (Some raw) token home saas true s0 = (inr tt, s1) ->
  conn (self s1) = None.
Proof.
  intros Hres Hinit.
  unfold __init__ in Hinit. rewrite Hres in Hinit. cbv zeta in Hinit.
  cbn [db_kind_eqb] in Hinit.
  match type of Hinit with
  | bind _ _ ?s0' = _ => set (s := s0') in Hinit
  end.
  unfold bind at 1 in Hinit.
  destruct (_initialize_connection s) as [[e | new_conn] s2] eqn:Hconnect; [discriminate |].
  apply initialize_connection_read_only in Hconnect as ->; [| reflexivity | reflexivity].
  unfold_monad. injection Hinit as <-. reflexivity.
Qed.

Lemma init_local_read_only (raw : string) (token home : option string) (saas : bool)
    (s0 s1 : state E) :
  startswith raw "md:" = false ->
  __init__ SERVER_VERSION (Some raw) token home saas true s0 = (inr tt, s1) ->
  conn (self s1) = None /\ db_type (self s1) = duckdb /\ _read_only (self s1) = true.
Proof.
  intros Hlocal Hinit.
  pose proof (resolve_local (environ s0) raw token saas Hlocal) as Hres.
  destruct (init_fields raw token home saas true s0 _ _ Hres) as (_ & Hkind & Hro & _).
  rewrite Hinit in Hkind, Hro. cbn [snd] in Hkind, Hro.
  split; [| split; assumption].
  exact (init_read_only_no_connection _ _ _ _ _ _ _ Hres Hinit).
Qed.

(** A client that [__init__] left with a stored connection is a
    persistent one, with the supervisor settings of the constructor. *)
Lemma init_stored_connection_persistent (raw : string) (token home : option string)
    (saas ro : bool) (s0 s1 : state E) (h : handle) :
  __init__ SERVER_VERSION (Some raw) token home saas ro s0 = (inr tt, s1) ->
  conn (self s1) = Some h ->
  persistent (self s1)
  /\ _health_check_interval (self s1) = 30
  /\ _max_retries (self s1) = 3
  /\ _retry_delay (self s1) = 1.
Proof.
  intros Hinit Hconn.
  destruct (_resolve_db_path_type (environ s0) raw token saas) as [e | [path kind]] eqn:Hres.
  { rewrite (init_resolution_error _ _ _ _ _ _ _ Hres) in Hinit. discriminate. }
  destruct (init_fields raw token home saas ro s0 _ _ Hres)
    as (_ & Hkind & Hro & _ & Hinterval & Hmax & Hdelay).
  rewrite Hinit in Hkind, Hro, Hinterval, Hmax, Hdelay.
  cbn [snd] in Hkind, Hro, Hinterval, Hmax, Hdelay.
  repeat split; try assumption.
  unfold persistent. rewrite Hkind, Hro.
  destruct kind, ro; try reflexivity.
  rewrite (init_read_only_no_connection _ _ _ _ _ _ _ Hres Hinit) in Hconn. discriminate.
Qed.

Lemma query_ephemeral_self (s : state E) (sql : string) :
  conn (self s) = None -> self (snd (query tabulate sql s)) = self s.
Proof.
  intros Hconn. rewrite (query_ephemeral s sql Hconn). cbv zeta.
  destruct (duckdb_connect _ _ _ _) as [[msg | h] e1]; [reflexivity |].
  destruct (conn_execute _ _ _) as [res e2]. destruct (conn_close _ _) as [cr e3].
  reflexivity.
Qed.

Lemma query_ephemeral_trace (s : state E) (sql : string) :
  conn (self s) = None ->
  trace (snd (query tabulate sql s))
  = (trace s ++ ephemeral_events (self s) sql (engine s))%list.
Proof.
  intros Hconn. rewrite (query_ephemeral s sql Hconn). unfold ephemeral_events. cbv zeta.
  destruct (duckdb_connect _ _ _ _) as [[msg | h] e1]; [reflexivity |].
  destruct (conn_execute _ _ _) as [res e2]. destruct (conn_close _ _) as [cr e3].
  reflexivity.
Qed.

Lemma ephemeral_events_released (c : DatabaseClient) (sql : string) (e : E) :
  released (ephemeral_events c sql e) = true.
Proof.
  unfold ephemeral_events.
  destruct (duckdb_connect _ _ _ _) as [[msg | h] e1]; [reflexivity |].
  destruct (conn_execute _ _ _) as [res e2]. cbn.
  now rewrite Nat.eqb_refl.
Qed.

Lemma queries_ephemeral_self (sqls : list string) :
  forall s : state E, conn (self s) = None -> self (queries tabulate sqls s) = self s.
Proof.
  induction sqls as [| sql rest IH]; intros s Hconn; cbn [queries]; [reflexivity |].
  rewrite IH; rewrite query_ephemeral_self; auto.
Qed.

(** C6.  Every query of a client built in local read-only mode makes one
    connection attempt of its own; when that attempt gives a handle, the
    text is submitted on it and the handle is closed as the last engine
    call of the query, whether the engine answered or raised; when it
    gives none, there is nothing to close.  Every handle the query opens
    is released before the query returns. *)
Theorem ephemeral_connection_always_closed
    (raw : string) (token home : option string) (saas : bool) (s0 s1 s : state E)
    (sql : string) :
  startswith raw "md:" = false ->
  __init__ SERVER_VERSION (Some raw) token home saas true s0 = (inr tt, s1) ->
  self s = self s1 ->
  trace (snd (query tabulate sql s))
  = (trace s ++ ephemeral_events (self s) sql (engine s))%list
  /\ released (ephemeral_events (self s) sql (engine s)) = true.
Proof.
  intros Hlocal Hinit Hsame.
  destruct (init_local_read_only _ _ _ _ _ _ Hlocal Hinit) as (Hconn & _).
  split; [| apply ephemeral_events_released].
  apply query_ephemeral_trace. now rewrite Hsame.
Qed.

(** C10.  A client built in local read-only mode stores no connection,
    and no query changes that or any other field of the client: after one
    query, and after any sequence of queries, the client is the one
    [__init__] built.  The only handle a query uses is the one its own
    connection attempt returned. *)
Theorem local_read_only_queries_leave_client_untouched
    (raw : string) (token home : option string) (saas : bool) (s0 s1 s : state E)
    (sql : string) (sqls : list string) :
  startswith raw "md:" = false ->
  __init__ SERVER_VERSION (Some raw) token home saas true s0 = (inr tt, s1) ->
  self s = self s1 ->
  conn (self s1) = None
  /\ self (snd (query tabulate sql s)) = self s1
  /\ self (queries tabulate sqls s) = self s1
  /\ trace (snd (query tabulate sql s))
     = (trace s ++ ephemeral_events (self s) sql (engine s))%list.
Proof.
  intros Hlocal Hinit Hsame.
  destruct (init_local_read_only _ _ _ _ _ _ Hlocal Hinit) as (Hconn & _).
  rewrite <- Hsame in *.
  split; [assumption |]. split; [now apply query_ephemeral_self |].
  split; [now apply queries_ephemeral_self | now apply query_ephemeral_trace].
Qed.

(** [query] after the connection step, case by case. *)
Lemma query_cases (s : state E) (sql : string) :
  query tabulate sql s
  = match _ensure_connection s with
    | (inl e, s1) => (inl (query_error e), s1)
    | (inr None, s1) =>
        (inl (query_error (none_has_no_attribute
                             match conn (self s1) with
                             | Some _ => "execute"
                             | None => "close"
                             end)), s1)
    | (inr (Some h), s1) =>
        match conn_execute h sql (engine s1) with
        | (res, e2) =>
            match conn (self s1) with
            | Some _ =>
                (query_answer tabulate res,
                 State (self s1) e2 (environ s1) (trace s1 ++ [EvExecute h sql res]))
            | None =>
                match conn_close h e2 with
                | (cr, e3) =>
                    (match cr with
                     | Some close_msg => inl (query_error (EngineError close_msg))
                     | None => query_answer tabulate res
                     end,
                     State (self s1) e3 (environ s1)
                           (trace s1 ++ [EvExecute h sql res; EvClose h cr]))
                end
            end
        end
    end.
Proof.
  unfold query, _execute, try_except. unfold bind at 1.
  destruct (_ensure_connection s) as [[e | [h |]] s1]; [reflexivity | |].
  - unfold_monad. cbn [self engine environ trace].
    destruct (conn_execute h sql (engine s1)) as [[msg | q] e2];
      destruct (conn (self s1)) as [kept |]; cbn [self engine environ trace];
      try reflexivity.
    all: destruct (conn_close h e2) as [[close_msg |] e3]; cbn [self engine environ trace];
      rewrite <- ?app_assoc; reflexivity.
  - unfold_monad. cbn [self]. destruct (conn (self s1)); reflexivity.
Qed.


(** * Further properties of the client *)

(** ** What no call changes *)

Lemma same_descriptor_refl (c : DatabaseClient) : same_descriptor c c.
Proof. repeat split. Qed.

Lemma same_descriptor_trans (a b c : DatabaseClient) :
  same_descriptor a b -> same_descriptor b c -> same_descriptor a c.
Proof.
  unfold same_descriptor. intros (?&?&?&?&?&?&?) (?&?&?&?&?&?&?).
  repeat split; congruence.
Qed.

Lemma same_descriptor_set_conn (c : DatabaseClient) (v : option handle) :
  same_descriptor c (set_conn c v).
Proof. repeat split. Qed.

Lemma same_descriptor_set_last (c : DatabaseClient) (t : Z) :
  same_descriptor c (set_last_health_check c t).
Proof. repeat split. Qed.

Lemma initialize_connection_environ (s : state E) :
  environ (snd (_initialize_connection s)) = environ s.
Proof.
  unfold _initialize_connection. unfold_monad. cbn.
  destruct (db_kind_eqb (db_type (self s)) duckdb && _read_only (self s));
    repeat (engine_case; cbn); reflexivity.
Qed.

(** One turn of the retry loop, whatever the mode of the client. *)
Lemma reconnect_attempt_cases (attempt : Z) (s : state E) :
  reconnect_attempt attempt s
  = match _initialize_connection s with
    | (inr new_conn, s1) =>
        (inr match new_conn with Some _ => Break | None => Continue end,
         with_self s1 (set_conn (self s1) new_conn))
    | (inl e, s1) =>
        if attempt <? _max_retries (self s1) - 1 then
          (inr Continue,
           State (self s1) (asyncio_sleep (_retry_delay (self s1) * 2 ^ attempt) (engine s1))
                 (environ s1) (trace s1 ++ [EvSleep (_retry_delay (self s1) * 2 ^ attempt)]))
        else (inl e, s1)
    end.
Proof.
  unfold reconnect_attempt, try_except. unfold bind at 1.
  destruct (_initialize_connection s) as [[e | new_conn] s1].
  - unfold_monad. cbn [self]. destruct (_ <? _); reflexivity.
  - unfold_monad. destruct new_conn; reflexivity.
Qed.

Lemma reconnect_attempt_frame (attempt : Z) (s s' : state E) (r : exn + loop_ctl) :
  reconnect_attempt attempt s = (r, s') ->
  same_descriptor (self s) (self s') /\ environ s' = environ s.
Proof.
  rewrite reconnect_attempt_cases.
  pose proof (initialize_connection_self s) as Hself.
  pose proof (initialize_connection_environ s) as Henv.
  destruct (_initialize_connection s) as [[e | new_conn] s1]; cbn [snd] in Hself, Henv.
  - destruct (_ <? _); intros [= <- <-]; cbn [self environ]; rewrite Hself;
      auto using same_descriptor_refl.
  - intros [= <- <-]. cbn [self environ with_self]. rewrite Hself.
    auto using same_descriptor_set_conn.
Qed.

Lemma reconnect_loop_frame (attempts : list Z) :
  forall (s s' : state E) (r : exn + unit),
    for_each attempts reconnect_attempt s = (r, s') ->
    same_descriptor (self s) (self s') /\ environ s' = environ s.
Proof.
  induction attempts as [| attempt rest IH]; intros s s' r.
  - intros [= <- <-]. auto using same_descriptor_refl.
  - rewrite for_each_cons.
    destruct (reconnect_attempt attempt s) as [[e | []] s1] eqn:Hstep;
      destruct (reconnect_attempt_frame _ _ _ _ Hstep) as [Hd He].
    + intros [= <- <-]. auto.
    + intros [= <- <-]. auto.
    + intros Hrest. destruct (IH _ _ _ Hrest) as [Hd' He']. split; [| congruence].
      eapply same_descriptor_trans; eassumption.
Qed.

Lemma health_check_frame (s s' : state E) (r : exn + bool) :
  _health_check s = (r, s') ->
  same_descriptor (self s) (self s')
  /\ conn (self s') = conn (self s)
  /\ environ s' = environ s.
Proof.
  rewrite health_check_cases.
  destruct (conn (self s)) as [h |] eqn:Hconn.
  2: { intros [= <- <-]. auto using same_descriptor_refl. }
  destruct (_ <? _).
  { intros [= <- <-]. auto using same_descriptor_refl. }
  destruct (conn_execute h "SELECT 1" (engine s)) as [[msg | q] e'];
    intros [= <- <-]; cbn [self environ];
    auto using same_descriptor_refl, same_descriptor_set_last.
Qed.

(** [_ensure_connection] after its health check, case by case. *)
Lemma ensure_connection_cases (s : state E) :
  _ensure_connection s
  = match conn (self s) with
    | None =>
        match duckdb_connect (db_path (self s)) (_connection_config (self s))
                             (_read_only (self s)) (engine s) with
        | (r, e') =>
            (match r with inl m => inl (EngineError m) | inr h => inr (Some h) end,
             State (self s) e' (environ s)
                   (trace s ++ [EvConnect (db_path (self s)) (_read_only (self s)) r]))
        end
    | Some stale =>
        match _health_check s with
        | (inl e, s1) => (inl e, s1)
        | (inr true, s1) => (inr (conn (self s1)), s1)
        | (inr false, s1) =>
            match conn_close stale (engine s1) with
            | (cr, e2) =>
                match for_each (range (_max_retries (self s1))) reconnect_attempt
                        (State (self s1) e2 (environ s1) (trace s1 ++ [EvClose stale cr])) with
                | (inl e, s3) => (inl e, s3)
                | (inr _, s3) => (inr (conn (self s3)), s3)
                end
            end
        end
    end.
Proof.
  unfold _ensure_connection. unfold bind at 1. unfold get_self at 1.
  destruct (conn (self s)) as [stale |].
  - unfold bind at 1.
    destruct (_health_check s) as [[e | []] s1]; cbn [negb]; try reflexivity.
    unfold bind at 1. unfold bind at 1. unfold try_except, close_handle.
    destruct (conn_close stale (engine s1)) as [[close_msg |] e2];
      cbv [ret]; unfold bind at 1; unfold get_self at 1; cbn [self];
      destruct (for_each _ _ _) as [[e | []] s3]; reflexivity.
  - unfold_monad. destruct (duckdb_connect _ _ _ _) as [[msg | h] e']; reflexivity.
Qed.

Lemma ensure_connection_frame (s s' : state E) (r : exn + option handle) :
  _ensure_connection s = (r, s') ->
  same_descriptor (self s) (self s') /\ environ s' = environ s.
Proof.
  rewrite ensure_connection_cases.
  destruct (conn (self s)) as [stale |].
  - destruct (_health_check s) as [[e | healthy] s1] eqn:Hcheck;
      destruct (health_check_frame _ _ _ Hcheck) as (Hd & _ & He).
    { intros [= <- <-]. auto. }
    destruct healthy; [intros [= <- <-]; auto |].
    destruct (conn_close stale (engine s1)) as [cr e2].
    destruct (for_each _ _ _) as [[e | []] s3] eqn:Hloop;
      destruct (reconnect_loop_frame _ _ _ _ Hloop) as [Hd' He'];
      cbn [self environ] in Hd', He'; intros [= <- <-];
      (split; [eapply same_descriptor_trans; eassumption | congruence]).
  - destruct (duckdb_connect _ _ _ _) as [[msg | h] e']; intros [= <- <-];
      cbn [self environ]; auto using same_descriptor_refl.
Qed.

(** X15.  A query, whatever its outcome and whatever the engine does,
    changes nothing of the client but the stored connection and the time
    of the last check (target, kind, read-only flag, interval, retry
    settings and connection options stay), and leaves the environment
    alone. *)
Theorem query_keeps_descriptor (s : state E) (sql : string) :
  same_descriptor (self s) (self (snd (query tabulate sql s)))
  /\ environ (snd (query tabulate sql s)) = environ s.
Proof.
  rewrite query_cases.
  destruct (_ensure_connection s) as [[e | [h |]] s1] eqn:Hacquire;
    destruct (ensure_connection_frame _ _ _ Hacquire) as [Hd He]; cbn [snd];
    try (split; assumption).
  destruct (conn_execute h sql (engine s1)) as [res e2].
  destruct (conn (self s1)); [split; assumption |].
  destruct (conn_close h e2) as [cr e3]. split; assumption.
Qed.

(** ** Construction *)

(** [__init__] once the target is resolved. *)
Lemma init_cases (raw : string) (token home : option string) (saas ro : bool)
    (s : state E) (path : string) (kind : db_kind) :
  _resolve_db_path_type (environ s) raw token saas = inr (path, kind) ->
  __init__ SERVER_VERSION (Some raw) token home saas ro s
  = match _initialize_connection
            (State (startup_client SERVER_VERSION ro path kind) (engine s)
                   (startup_environ home (environ s)) (trace s)) with
    | (inl e, s1) => (inl e, s1)
    | (inr new_conn, s1) => (inr tt, with_self s1 (set_conn (self s1) new_conn))
    end.
Proof.
  intros Hres. unfold __init__. rewrite Hres. cbv zeta.
  unfold bind at 1. unfold startup_client, startup_environ.
  destruct (_initialize_connection _) as [[e | new_conn] s1]; reflexivity.
Qed.

(** [_initialize_connection] when the engine refuses the connection. *)
Lemma initialize_connection_refused (s : state E) (msg : string) (e' : E) :
  duckdb_connect (db_path (self s)) (_connection_config (self s)) (_read_only (self s))
                 (engine s) = (inl msg, e') ->
  _initialize_connection s
  = (inl (EngineError msg),
     State (self s) e' (environ s)
           (trace s ++ [EvConnect (db_path (self s)) (_read_only (self s)) (inl msg)])).
Proof.
  intros Hconnect. unfold _initialize_connection. unfold_monad. cbn [self].
  destruct (db_kind_eqb _ _ && _); rewrite Hconnect; reflexivity.
Qed.

(** X1.  A first connection that the engine refuses makes [__init__]
    raise the engine's error at once, in either mode: one connection
    attempt, no sleep, no second attempt. *)
Theorem startup_connection_failure_is_not_retried
    (raw : string) (token home : option string) (saas ro : bool) (s : state E)
    (path : string) (kind : db_kind) (msg : string) (e' : E) :
  _resolve_db_path_type (environ s) raw token saas = inr (path, kind) ->
  duckdb_connect (db_path (startup_client SERVER_VERSION ro path kind))
                 (_connection_config (startup_client SERVER_VERSION ro path kind))
                 ro (engine s) = (inl msg, e') ->
  fst (__init__ SERVER_VERSION (Some raw) token home saas ro s) = inl (EngineError msg)
  /\ trace (snd (__init__ SERVER_VERSION (Some raw) token home saas ro s))
     = (trace s ++ [EvConnect (db_path (startup_client SERVER_VERSION ro path kind)) ro
                              (inl msg)])%list.
Proof.
  intros Hres Hconnect. rewrite (init_cases _ _ _ _ _ _ _ _ Hres).
  rewrite (initialize_connection_refused _ msg e') by exact Hconnect.
  split; reflexivity.
Qed.


(** The check of a local read-only client, step by step. *)
Lemma initialize_connection_read_only_cases (s : state E) :
  db_type (self s) = duckdb ->
  _read_only (self s) = true ->
  trace (snd (_initialize_connection s))
  = (trace s ++ read_only_check_events (self s) (engine s))%list
  /\ fst (_initialize_connection s)
     = match duckdb_connect (db_path (self s)) (_connection_config (self s)) true (engine s) with
       | (inl msg, _) => inl (EngineError msg)
       | (inr h, e1) =>
           match conn_execute h "SELECT 1" e1 with
           | (inl msg, _) => inl (EngineError msg)
           | (inr _, e2) =>
               match fst (conn_close h e2) with
               | Some msg => inl (EngineError msg)
               | None => inr None
               end
           end
       end.
Proof.
  intros Hkind Hro. unfold _initialize_connection, read_only_check_events.
  unfold_monad. cbn [self]. rewrite Hkind, Hro. cbn [db_kind_eqb andb].
  destruct (duckdb_connect _ _ _ _) as [[msg | h] e1]; cbn [fst snd trace engine];
    [split; reflexivity |].
  destruct (conn_execute h "SELECT 1" e1) as [[msg | q] e2]; cbn [fst snd trace engine];
    [rewrite <- ?app_assoc; split; reflexivity |].
  destruct (conn_close h e2) as [[msg |] e3]; cbn [fst snd trace];
    rewrite <- ?app_assoc; split; reflexivity.
Qed.

(** X3.  Building a local read-only client opens the file, runs
    [SELECT 1] and closes the connection again.  When the statement
    fails, [__init__] raises its error and the connection it opened is
    left open: the close is skipped. *)
Theorem read_only_startup_check_leaks_on_failed_probe
    (raw : string) (token home : option string) (saas : bool) (s : state E)
    (h : handle) (e1 e2 : E) (msg : string) :
  startswith raw "md:" = false ->
  duckdb_connect raw (_connection_config (startup_client SERVER_VERSION true raw duckdb))
                 true (engine s) = (inr h, e1) ->
  conn_execute h "SELECT 1" e1 = (inl msg, e2) ->
  fst (__init__ SERVER_VERSION (Some raw) token home saas true s) = inl (EngineError msg)
  /\ trace (snd (__init__ SERVER_VERSION (Some raw) token home saas true s))
     = (trace s ++ [EvConnect raw true (inr h); EvExecute h "SELECT 1" (inl msg)])%list
  /\ released [EvConnect raw true (inr h); EvExecute h "SELECT 1" (inl msg)] = false.
Proof.
  intros Hlocal Hconnect Hprobe.
  rewrite (init_cases _ _ _ _ _ _ _ _ (resolve_local _ _ _ _ Hlocal)).
  match goal with
  | |- context [_initialize_connection ?s0] =>
      destruct (initialize_connection_read_only_cases s0 eq_refl eq_refl) as [Htrace Hres];
      destruct (_initialize_connection s0) as [r s1]
  end.
  cbn [fst snd self engine trace startup_client db_kind_eqb db_path _connection_config
       _read_only] in Htrace, Hres.
  unfold read_only_check_events in Htrace.
  cbn [startup_client db_kind_eqb db_path _connection_config _read_only] in Htrace, Hconnect.
  rewrite Hconnect in Htrace, Hres. rewrite Hprobe in Htrace, Hres.
  subst r. cbn [fst snd]. split; [reflexivity |]. split; [exact Htrace | reflexivity].
Qed.

(** X4.  When [__init__] of a local read-only client returns, its engine
    calls were one connection, [SELECT 1] on it, and its close, all three
    successful, and no connection is kept. *)
Theorem read_only_startup_check_succeeds
    (raw : string) (token home : option string) (saas : bool) (s s1 : state E) :
  startswith raw "md:" = false ->
  __init__ SERVER_VERSION (Some raw) token home saas true s = (inr tt, s1) ->
  conn (self s1) = None
  /\ exists (h : handle) (q : cursor),
       trace s1 = (trace s ++ [EvConnect raw true (inr h); EvExecute h "SELECT 1" (inr q);
                               EvClose h None])%list.
Proof.
  intros Hlocal Hinit.
  split; [exact (proj1 (init_local_read_only _ _ _ _ _ _ Hlocal Hinit)) |].
  rewrite (init_cases _ _ _ _ _ _ _ _ (resolve_local _ _ _ _ Hlocal)) in Hinit.
  match type of Hinit with
  | context [_initialize_connection ?s0] =>
      destruct (initialize_connection_read_only_cases s0 eq_refl eq_refl) as [Htrace Hres];
      destruct (_initialize_connection s0) as [[e | new_conn] s2]; [discriminate |]
  end.
  injection Hinit as <-. cbn [trace with_self].
  cbn [fst snd self engine trace startup_client db_kind_eqb db_path _connection_config
       _read_only] in Htrace, Hres.
  unfold read_only_check_events in Htrace.
  cbn [startup_client db_kind_eqb db_path _connection_config _read_only] in Htrace.
  destruct (duckdb_connect _ _ _ _) as [[msg | h] e1]; [discriminate |].
  destruct (conn_execute h "SELECT 1" e1) as [[msg | q] e2]; [discriminate |].
  destruct (conn_close h e2) as [[msg |] e3]; cbn [fst] in Htrace, Hres; [discriminate |].
  exists h, q. exact Htrace.
Qed.

(** X5.  Resolution classifies by the scheme alone: the kind is
    [motherduck] exactly for targets that start with [md:], the resolved
    string starts with the raw target, and only [md:] targets can fail
    to resolve. *)
Theorem resolution_kind_follows_scheme
    (environ0 : gmap string string) (raw : string) (token : option string) (saas : bool) :
  match _resolve_db_path_type environ0 raw token saas with
  | inr (path, kind) =>
      db_kind_eqb kind motherduck = startswith raw "md:"
      /\ is_prefix raw path = true
  | inl e => startswith raw "md:" = true /\ e = ValueError missing_token_message
  end.
Proof.
  assert (Hself : is_prefix raw raw = true).
  { rewrite <- (is_prefix_refl_app raw ""). f_equal.
    clear. induction raw; cbn; congruence. }
  unfold _resolve_db_path_type.
  destruct (startswith raw "md:") eqn:Hmd.
  - destruct (nonempty token) as [t |]; [destruct saas |];
      [| | destruct (nonempty (os_getenv environ0 "motherduck_token"))];
      cbn [db_kind_eqb]; auto using is_prefix_refl_app.
  - destruct (String.eqb raw ":memory:"); cbn [db_kind_eqb]; auto.
Qed.

(** ** Shutdown *)

Lemma close_cases (s : state E) :
  close s
  = match conn (self s) with
    | None => (inr tt, s)
    | Some h =>
        match conn_close h (engine s) with
        | (cr, e') =>
            (inr tt,
             State (set_conn (self s) None) e' (environ s) (trace s ++ [EvClose h cr]))
        end
    end.
Proof.
  unfold close. unfold_monad.
  destruct (conn (self s)) as [h |]; [| reflexivity].
  destruct (conn_close h (engine s)) as [[msg |] e']; reflexivity.
Qed.

(** X6.  [close] never raises, whatever the engine answers to the close
    of the handle; afterwards the client stores no connection and is
    otherwise unchanged; the only engine call is the close of a stored
    handle; a second [close] does nothing at all. *)
Theorem close_forgets_connection (s : state E) :
  fst (close s) = inr tt
  /\ self (snd (close s)) = set_conn (self s) None
  /\ trace (snd (close s))
     = (trace s ++ match conn (self s) with
                   | Some h => [EvClose h (fst (conn_close h (engine s)))]
                   | None => []
                   end)%list
  /\ close (snd (close s)) = (inr tt, snd (close s)).
Proof.
  rewrite !close_cases.
  destruct (conn (self s)) as [h |] eqn:Hconn.
  - destruct (conn_close h (engine s)) as [cr e']. cbn [fst snd self conn set_conn].
    repeat split.
  - cbn [fst snd]. rewrite Hconn. rewrite app_nil_r. repeat split.
    destruct (self s); cbn in *; now subst.
Qed.

(** X7.  [close] is not the end of the client: a query after it opens a
    connection of its own, submits the text, closes that connection, and
    stores nothing, as a local read-only client does. *)
Theorem query_after_close_uses_short_lived_connection (s : state E) (sql : string) :
  let s1 := snd (close s) in
  trace (snd (query tabulate sql s1))
  = (trace s1 ++ ephemeral_events (self s1) sql (engine s1))%list
  /\ released (ephemeral_events (self s1) sql (engine s1)) = true
  /\ self (snd (query tabulate sql s1)) = self s1
  /\ conn (self s1) = None.
Proof.
  cbv zeta.
  assert (Hconn : conn (self (snd (close s))) = None).
  { destruct (close_forgets_connection s) as (_ & -> & _). reflexivity. }
  split; [now apply query_ephemeral_trace |].
  split; [apply ephemeral_events_released |].
  split; [now apply query_ephemeral_self | exact Hconn].
Qed.

(** ** The two query entry points *)

Lemma query_sync_cases (s : state E) (sql : string) :
  query_sync tabulate sql s
  = let c := self s in
    match conn c with
    | Some h =>
        match conn_execute h sql (engine s) with
        | (res, e') =>
            (query_answer tabulate res,
             State c e' (environ s) (trace s ++ [EvExecute h sql res]))
        end
    | None =>
        match duckdb_connect (db_path c) (_connection_config c) (_read_only c) (engine s) with
        | (inl msg, e1) =>
            (inl (EngineError msg),
             State c e1 (environ s) (trace s ++ [EvConnect (db_path c) (_read_only c) (inl msg)]))
        | (inr h, e1) =>
            match conn_execute h sql e1 with
            | (res, e2) =>
                match conn_close h e2 with
                | (cr, e3) =>
                    (match cr with
                     | Some close_msg => inl (EngineError close_msg)
                     | None =>
                         match res with
                         | inl msg => inl (EngineError msg)
                         | inr q => inr (tabulate (fetchall q) (headers q))
                         end
                     end,
                     State c e3 (environ s)
                           (trace s ++ [EvConnect (db_path c) (_read_only c) (inr h);
                                        EvExecute h sql res; EvClose h cr]))
                end
            end
        end
    end.
Proof.
  unfold query_sync. unfold_monad. cbv zeta.
  destruct (conn (self s)) as [h |].
  - destruct (conn_execute h sql (engine s)) as [[msg | q] e']; reflexivity.
  - destruct (duckdb_connect _ _ _ _) as [[msg | h] e1]; [reflexivity |].
    cbn [self engine environ trace].
    destruct (conn_execute h sql e1) as [[msg | q] e2]; cbn [self engine environ trace];
      destruct (conn_close h e2) as [[close_msg |] e3]; cbn [self engine environ trace];
      rewrite <- ?app_assoc; reflexivity.
Qed.

(** The error that [query] makes of an outcome of [query_sync]. *)
Lemma query_wraps_query_sync (s : state E) (sql : string) :
  conn (self s) = None ->
  query tabulate sql s
  = (match fst (query_sync tabulate sql s) with
     | inl e => inl (query_error e)
     | inr table => inr table
     end, snd (query_sync tabulate sql s)).
Proof.
  intros Hconn. rewrite (query_ephemeral s sql Hconn), query_sync_cases. cbv zeta.
  rewrite Hconn.
  destruct (duckdb_connect _ _ _ _) as [[msg | h] e1]; [reflexivity |].
  destruct (conn_execute h sql e1) as [[msg | q] e2];
    destruct (conn_close h e2) as [[close_msg |] e3]; reflexivity.
Qed.

(** X8.  Without a stored connection the two entry points make the same
    engine calls and leave the same state; they differ in the error
    only: [query] raises a [ValueError] with the prefixed message where
    [query_sync] lets the engine's own error through, never a
    [ValueError]. *)
Theorem query_sync_raises_engine_error_unwrapped (s : state E) (sql : string) :
  conn (self s) = None ->
  snd (query tabulate sql s) = snd (query_sync tabulate sql s)
  /\ fst (query tabulate sql s)
     = match fst (query_sync tabulate sql s) with
       | inl e => inl (query_error e)
       | inr table => inr table
       end
  /\ match fst (query_sync tabulate sql s) with
     | inl e => exists msg, e = EngineError msg
     | inr _ => True
     end.
Proof.
  intros Hconn. rewrite (query_wraps_query_sync s sql Hconn). cbn [fst snd].
  split; [reflexivity |]. split; [reflexivity |].
  rewrite query_sync_cases. cbv zeta. rewrite Hconn.
  destruct (duckdb_connect _ _ _ _) as [[msg | h] e1]; cbn [fst]; [eauto |].
  destruct (conn_execute h sql e1) as [[msg | q] e2];
    destruct (conn_close h e2) as [[close_msg |] e3]; cbn [fst]; eauto.
Qed.

(** X9.  With a stored connection [query_sync] goes straight to the
    engine: one [execute] of the text on the stored handle, no health
    check, no reconnection, the client left as it was; a failure comes
    back as the prefixed [ValueError].  Within the health-check interval
    [query] does exactly the same. *)
Theorem query_sync_uses_stored_handle_unchecked (s : state E) (h : handle) (sql : string) :
  conn (self s) = Some h ->
  query_sync tabulate sql s
  = (query_answer tabulate (fst (conn_execute h sql (engine s))),
     State (self s) (snd (conn_execute h sql (engine s))) (environ s)
           (trace s ++ [EvExecute h sql (fst (conn_execute h sql (engine s)))]))
  /\ ((time_time (engine s) - _last_health_check (self s)
        <? _health_check_interval (self s)) = true ->
      query tabulate sql s = query_sync tabulate sql s).
Proof.
  intros Hconn. rewrite query_sync_cases. cbv zeta. rewrite Hconn.
  destruct (conn_execute h sql (engine s)) as [res e'] eqn:Hexecute. cbn [fst snd].
  split; [reflexivity |]. intros Hwindow.
  assert (Hcheck : _health_check s = (inr true, s)).
  { rewrite health_check_cases, Hconn, Hwindow. reflexivity. }
  rewrite query_cases, (ensure_connection_healthy _ _ _ Hconn Hcheck), Hconn, Hexecute.
  reflexivity.
Qed.

(** X10.  Past the interval, a query on a live handle costs two engine
    calls, the probe and the submission, both on the stored handle, which
    is neither closed nor replaced; the check time becomes the clock
    reading at which the query started. *)
Theorem query_after_interval_probes_then_submits
    (s : state E) (h : handle) (sql : string) (q : cursor) (e1 : E) :
  conn (self s) = Some h ->
  _health_check_interval (self s) <= time_time (engine s) - _last_health_check (self s) ->
  conn_execute h "SELECT 1" (engine s) = (inr q, e1) ->
  trace (snd (query tabulate sql s))
  = (trace s ++ [EvExecute h "SELECT 1" (inr q);
                 EvExecute h sql (fst (conn_execute h sql e1))])%list
  /\ self (snd (query tabulate sql s))
     = set_last_health_check (self s) (time_time (engine s))
  /\ fst (query tabulate sql s) = query_answer tabulate (fst (conn_execute h sql e1)).
Proof.
  intros Hconn Helapsed Hprobe.
  assert (Hcheck : _health_check s
                   = (inr true,
                      State (set_last_health_check (self s) (time_time (engine s))) e1
                            (environ s) (trace s ++ [EvExecute h "SELECT 1" (inr q)]))).
  { rewrite health_check_cases, Hconn. replace (_ <? _) with false by lia.
    now rewrite Hprobe. }
  rewrite query_cases, (ensure_connection_healthy _ _ _ Hconn Hcheck).
  cbn [self engine environ trace conn set_last_health_check]. rewrite Hconn.
  destruct (conn_execute h sql e1) as [res e2]. cbn [fst snd self trace].
  rewrite <- app_assoc. repeat split.
Qed.

(** ** Health check and reconnection, further *)

(** X11.  [_health_check] never raises.  It answers unhealthy only when
    the client stores a handle, the interval has elapsed and the probe of
    that handle failed; the stored connection is the same afterwards. *)
Theorem health_check_never_raises (s : state E) :
  exists healthy : bool,
    fst (_health_check s) = inr healthy
    /\ conn (self (snd (_health_check s))) = conn (self s)
    /\ (healthy = false ->
        exists (h : handle) (msg : string),
          conn (self s) = Some h
          /\ _health_check_interval (self s)
             <= time_time (engine s) - _last_health_check (self s)
          /\ fst (conn_execute h "SELECT 1" (engine s)) = inl msg).
Proof.
  rewrite health_check_cases.
  destruct (conn (self s)) as [h |] eqn:Hconn.
  2: { exists true. cbn [fst snd]. repeat split; auto; discriminate. }
  destruct (_ <? _) eqn:Hwindow.
  { exists true. cbn [fst snd]. repeat split; auto; discriminate. }
  apply Z.ltb_ge in Hwindow.
  destruct (conn_execute h "SELECT 1" (engine s)) as [[msg | q] e'] eqn:Hprobe.
  - exists false. cbn [fst snd self]. repeat split; auto.
    intros _. exists h, msg. rewrite Hprobe. repeat split; auto.
  - exists true. cbn [fst snd self conn set_last_health_check].
    repeat split; auto; discriminate.
Qed.

Lemma sleep_total_app (a b : list event) :
  sleep_total (a ++ b) = sleep_total a + sleep_total b.
Proof.
  induction a as [| ev a IH]; cbn [sleep_total app]; [lia |].
  destruct ev; rewrite ?IH; lia.
Qed.

Lemma connect_attempts_app (a b : list event) :
  connect_attempts (a ++ b) = connect_attempts a + connect_attempts b.
Proof.
  induction a as [| ev a IH]; cbn [connect_attempts app]; [lia |].
  destruct ev; rewrite ?IH; lia.
Qed.

(** The sleeps of a reconnection double: they add up to a geometric sum. *)
Lemma backoff_events_totals (path : string) (ro : bool) (delay : Z) (fails : list string)
    (final : string + handle) :
  forall attempt : Z,
    0 <= attempt ->
    sleep_total (backoff_events path ro delay attempt fails final)
    = delay * 2 ^ attempt * (2 ^ Z.of_nat (length fails) - 1)
    /\ connect_attempts (backoff_events path ro delay attempt fails final)
       = Z.of_nat (length fails) + 1.
Proof.
  induction fails as [| msg rest IH]; intros attempt Hattempt.
  - cbn. split; lia.
  - cbn [backoff_events sleep_total connect_attempts length].
    destruct (IH (attempt + 1)) as [Hs Hc]; [lia |].
    rewrite Hs, Hc, Nat2Z.inj_succ, !Z.pow_succ_r, Z.pow_add_r by lia.
    split; lia.
Qed.

(** X12.  A call of [_ensure_connection] on a persistent client makes at
    most [_max_retries] connection attempts and sleeps at most
    [_retry_delay * (2 ^ (_max_retries - 1) - 1)] seconds in all (three
    seconds with the settings of [__init__]); when it raises, it made
    exactly that many attempts and slept exactly that long. *)
Theorem reconnection_attempts_and_sleep_are_bounded (s : state E) (stale : handle) :
  conn (self s) = Some stale ->
  persistent (self s) ->
  0 < _max_retries (self s) ->
  0 <= _retry_delay (self s) ->
  let out := _ensure_connection s in
  let bound := _retry_delay (self s) * (2 ^ (_max_retries (self s) - 1) - 1) in
  connect_attempts (trace (snd out)) - connect_attempts (trace s) <= _max_retries (self s)
  /\ sleep_total (trace (snd out)) - sleep_total (trace s) <= bound
  /\ (forall e, fst out = inl e ->
      connect_attempts (trace (snd out)) - connect_attempts (trace s) = _max_retries (self s)
      /\ sleep_total (trace (snd out)) - sleep_total (trace s) = bound).
Proof.
  intros Hconn Hmode Hmax Hdelay out bound.
  assert (Hbound : 0 <= bound).
  { subst bound. apply Z.mul_nonneg_nonneg; [assumption |].
    pose proof (Z.pow_pos_nonneg 2 (_max_retries (self s) - 1)). lia. }
  pose proof (health_check_cases s) as Hcheck. rewrite Hconn in Hcheck.
  destruct (_ <? _) eqn:Hwindow in Hcheck.
  { subst out. rewrite (ensure_connection_healthy _ _ _ Hconn Hcheck). cbn [fst snd].
    split; [lia |]. split; [lia |]. intros e He. discriminate He. }
  destruct (conn_execute stale "SELECT 1" (engine s)) as [[msg | q] e1] eqn:Hprobe.
  2: { subst out. rewrite (ensure_connection_healthy _ _ _ Hconn Hcheck).
       cbn [fst snd trace]. rewrite sleep_total_app, connect_attempts_app.
       cbn [sleep_total connect_attempts].
       split; [lia |]. split; [lia |]. intros e He. discriminate He. }
  apply Z.ltb_ge in Hwindow.
  destruct (ensure_connection_reconnects s stale msg e1 Hconn Hmode Hmax Hwindow Hprobe)
    as (fails & final & Htrace & Hfails & Hfinal).
  fold out in Htrace, Hfinal.
  destruct (backoff_events_totals (db_path (self s)) (_read_only (self s))
              (_retry_delay (self s)) fails final 0) as [Hs Hc]; [lia |].
  rewrite Htrace, sleep_total_app, connect_attempts_app.
  cbn [sleep_total connect_attempts]. rewrite Hs, Hc.
  replace (2 ^ 0) with 1 by reflexivity.
  assert (Hpow : 2 ^ Z.of_nat (length fails) <= 2 ^ (_max_retries (self s) - 1))
    by (apply Z.pow_le_mono_r; lia).
  split; [lia |]. split; [subst bound; nia |].
  intros e He. destruct final as [m' | h']; [| destruct Hfinal as [Hok _]; congruence].
  destruct Hfinal as (_ & Hlen & _). rewrite Hlen. subst bound. split; lia.
Qed.

(** X13.  A successful reconnection stores the new handle and leaves the
    time of the last check where it was: the next call, made no earlier
    on the clock, probes the new handle again. *)
Theorem reconnection_does_not_reset_check_time
    (s s1 s2 : state E) (stale h : handle) (msg : string) (e1 : E) :
  conn (self s) = Some stale ->
  persistent (self s) ->
  0 < _max_retries (self s) ->
  _health_check_interval (self s) <= time_time (engine s) - _last_health_check (self s) ->
  conn_execute stale "SELECT 1" (engine s) = (inl msg, e1) ->
  _ensure_connection s = (inr (Some h), s1) ->
  self s2 = self s1 ->
  time_time (engine s) <= time_time (engine s2) ->
  self s1 = set_conn (self s) (Some h)
  /\ trace (snd (_health_check s2))
     = (trace s2 ++ [EvExecute h "SELECT 1" (fst (conn_execute h "SELECT 1" (engine s2)))])%list.
Proof.
  intros Hconn Hmode Hmax Helapsed Hprobe Hrun Hsame Hclock.
  destruct (ensure_connection_reconnects s stale msg e1 Hconn Hmode Hmax Helapsed Hprobe)
    as (fails & final & _ & _ & Hfinal).
  rewrite Hrun in Hfinal. cbn [fst snd] in Hfinal.
  destruct final as [m' | h']; [destruct Hfinal as [Habs _]; discriminate |].
  destruct Hfinal as [Hret Hself]. injection Hret as ->.
  split; [exact Hself |].
  rewrite health_check_cases, Hsame, Hself. cbn [conn set_conn _last_health_check
                                                 _health_check_interval].
  replace (_ <? _) with false by lia.
  destruct (conn_execute h' "SELECT 1" (engine s2)) as [[m2 | q2] e2]; reflexivity.
Qed.

(** ** The command line *)

Lemma py_or_nonempty (a b : option string) :
  nonempty (lightweight_server.py_or a b)
  = match nonempty a with Some t => Some t | None => nonempty b end.
Proof.
  unfold lightweight_server.py_or.
  destruct a as [[| x a] |]; reflexivity.
Qed.

(** X14.  Started from the command line, the client gets the credential
    of [--motherduck-token] or else of the environment as its explicit
    argument; a remote target in SaaS mode therefore carries
    [saas_mode=true] also when the credential comes from the environment. *)
Theorem main_passes_environment_token_explicitly
    (args : lightweight_server.Namespace) (s : state E) (cred : string) :
  startswith (lightweight_server.db_path args) "md:" = true ->
  effective_token (environ s) (lightweight_server.motherduck_token args) = Some cred ->
  db_path (self (snd (lightweight_server.main SERVER_VERSION args s)))
  = lightweight_server.db_path args ++ "?motherduck_token=" ++ cred
      ++ (if lightweight_server.saas_mode args then "&saas_mode=true" else "")
      ++ "&single_attach=true".
Proof.
  intros Hmd Hcred.
  unfold lightweight_server.main, lightweight_server.create_optimized_server,
    fastmcp_server.create_fastmcp_server.
  cbv zeta. cbn [fastmcp_server.db_path fastmcp_server.motherduck_token
                 fastmcp_server.home_dir fastmcp_server.saas_mode fastmcp_server.read_only].
  set (token := lightweight_server.py_or _ _).
  assert (Htoken : nonempty token = Some cred).
  { subst token. rewrite py_or_nonempty. exact Hcred. }
  assert (Heff : effective_token (environ s) token = Some cred).
  { unfold effective_token. now rewrite Htoken. }
  pose proof (resolve_remote_with_credential _ _ _ _ (lightweight_server.saas_mode args)
                Hmd Heff) as Hres.
  destruct (init_fields _ _ (lightweight_server.home_dir args) _
              (lightweight_server.read_only args) s _ _ Hres) as (Hpath & _).
  cbn [db_kind_eqb] in Hpath. rewrite add_single_attach_query in Hpath.
  rewrite Hpath. unfold mode_parameter. rewrite Htoken.
  cbn [append]. now rewrite !append_assoc.
Qed.

End Properties.

(** * The properties on concrete runs *)

(** C2.  With the credential taken from the environment, SaaS mode is
    requested and the resolved string carries no [saas_mode=true]: the
    branch of [_resolve_db_path_type] for the environment variable does
    not look at [saas_mode], the branch for the explicit argument does. *)
Theorem saas_mode_dropped_with_env_token :
  _resolve_db_path_type env_with_token "md:" None true
  = inr ("md:?motherduck_token=tok123", motherduck)
  /\ db_path (self (snd (__init__ "0.6.2" (Some "md:") None None true false
                                  boot_with_env_token)))
     = "md:?motherduck_token=tok123&single_attach=true"
  /\ contains "saas_mode=true" "md:?motherduck_token=tok123&single_attach=true" = false
  /\ _resolve_db_path_type env_with_token "md:" (Some "tok123") true
     = inr ("md:?motherduck_token=tok123&saas_mode=true", motherduck).
Proof. repeat split; vm_compute; reflexivity. Qed.

(** C4, the claim as stated fails: a remote target that already carries
    the directive ends up with it twice. *)
Lemma single_attach_twice :
  let path := db_path (self (snd (__init__ "0.6.2" (Some "md:db?single_attach=true")
                                          (Some "tok123") None false false boot))) in
  startswith "md:db?single_attach=true" "md:" = true
  /\ path = "md:db?single_attach=true?motherduck_token=tok123&single_attach=true"
  /\ occurrences single_attach path = 2%nat
  /\ occurrences single_attach path <> 1%nat.
Proof. cbv zeta. repeat split; vm_compute; (reflexivity || discriminate). Qed.

(** Explicit credential ["tok123"] while the environment holds another
    one: the explicit one is used. *)
Lemma remote_target_credential_and_single_attach_witness :
  startswith "md:" "md:" = true
  /\ let path := db_path (self (snd (__init__ "0.6.2" (Some "md:") (Some "tok123") None
                                             true false boot_with_other_token))) in
     (exists mode,
         (mode = "" \/ mode = "&saas_mode=true")
         /\ path = "md:" ++ "?motherduck_token=" ++ "tok123" ++ mode ++ "&single_attach=true")
     /\ contains "tok123" path = true
     /\ occurrences single_attach path = 1%nat.
Proof.
  split; [reflexivity |].
  exact (remote_target_credential_and_single_attach
           "0.6.2" "md:" (Some "tok123") None true false boot_with_other_token eq_refl).
Defined.

(** The in-memory target while the environment holds a credential. *)
Lemma local_target_resolves_unchanged_witness :
  startswith ":memory:" "md:" = false
  /\ _resolve_db_path_type env_with_token ":memory:" None true = inr (":memory:", duckdb)
  /\ db_path (self (snd (__init__ "0.6.2" (Some ":memory:") None None true false
                                  boot_with_env_token))) = ":memory:"
  /\ db_type (self (snd (__init__ "0.6.2" (Some ":memory:") None None true false
                                  boot_with_env_token))) = duckdb.
Proof.
  split; [reflexivity |].
  exact (local_target_resolves_unchanged
           "0.6.2" env_with_token ":memory:" None None true false boot_with_env_token eq_refl).
Defined.

(** The client built by [__init__] (three retries, one second of base
    delay): dead handle, three refused connections. *)
Lemma failed_health_check_reconnects_with_backoff_witness :
  reconnect_cycle md_client 0%nat dead_handle_process "dead" None
                  (_ensure_connection dead_handle_process)
  /\ trace (snd (_ensure_connection dead_handle_process))
     = [EvExecute 0%nat "SELECT 1" (inl "dead"); EvClose 0%nat None;
        EvConnect (db_path md_client) false (inl "a"); EvSleep 1;
        EvConnect (db_path md_client) false (inl "b"); EvSleep 2;
        EvConnect (db_path md_client) false (inl "c")]
  /\ fst (_ensure_connection dead_handle_process) = inl (EngineError "c").
Proof.
  split; [| split; reflexivity].
  refine (failed_health_check_reconnects_with_backoff
            dead_handle_process 0%nat "dead"
            (Fake 100 [Some "a"; Some "b"; Some "c"] [] [] 1%nat) _ _ _ _ _).
  - reflexivity.
  - reflexivity.
  - reflexivity.
  - vm_compute. discriminate.
  - reflexivity.
Defined.

(** After that exhausted call, the next call reconnects at its first
    attempt. *)
Lemma exhausted_reconnection_is_retried_by_next_call_witness :
  _ensure_connection dead_handle_process
  = (inl (EngineError "c"), snd (_ensure_connection dead_handle_process))
  /\ self (snd (_ensure_connection dead_handle_process)) = self dead_handle_process
  /\ reconnect_cycle md_client 0%nat later_process "still dead" None
                     (_ensure_connection later_process)
  /\ fst (_ensure_connection later_process) = inr (Some 1%nat).
Proof.
  split; [reflexivity |].
  assert (Hnext : self (snd (_ensure_connection dead_handle_process)) = self dead_handle_process
                  /\ reconnect_cycle md_client 0%nat later_process "still dead" None
                                     (_ensure_connection later_process)).
  { refine (exhausted_reconnection_is_retried_by_next_call
              dead_handle_process (snd (_ensure_connection dead_handle_process)) later_process
              0%nat (EngineError "c") "still dead" (Fake 200 [] [] [] 1%nat) _ _ _ _ _ _ _);
      try reflexivity; vm_compute; discriminate. }
  destruct Hnext as [Hkept Hcycle].
  split; [exact Hkept |]. split; [exact Hcycle | reflexivity].
Defined.

(** A probe at reading 100, checks at 110 and 120, then a check at 125. *)
Lemma health_check_within_interval_skips_probe_witness :
  let c1 := self (snd (_health_check (healthy_process 100))) in
  let c2 := health_checks c1 [healthy_process 110; healthy_process 120] in
  _last_health_check c1 = 100
  /\ _health_check (with_self (healthy_process 125) c2)
     = (inr true, with_self (healthy_process 125) c2).
Proof.
  cbv zeta.
  destruct (health_check_within_interval_skips_probe
              md_client 0%nat (healthy_process 100) (healthy_process 125)
              (healthy_process 100) one_row (Fake 100 [] [] [] 1%nat)
              [healthy_process 110; healthy_process 120])
    as (_ & _ & Hlast & Hskip & _).
  - reflexivity.
  - vm_compute. discriminate.
  - vm_compute. discriminate.
  - reflexivity.
  - reflexivity.
  - split; [exact Hlast | exact Hskip].
Defined.

(** A rejected query of a local read-only client: connect, execute,
    close. *)
Lemma ephemeral_connection_always_closed_witness :
  __init__ "0.6.2" (Some "/data/file.db") None None false true boot = (inr tt, ro_built)
  /\ trace (snd (query fake_tabulate "SELEC 1" ro_rejected_query))
     = [EvConnect "/data/file.db" true (inr 5%nat);
        EvExecute 5%nat "SELEC 1" (inl "syntax error");
        EvClose 5%nat None]
  /\ released (ephemeral_events (self ro_rejected_query) "SELEC 1"
                                (engine ro_rejected_query)) = true.
Proof.
  split; [reflexivity |].
  exact (ephemeral_connection_always_closed
           "0.6.2" fake_tabulate "/data/file.db" None None false boot ro_built
           ro_rejected_query "SELEC 1" eq_refl eq_refl eq_refl).
Defined.

(** The same client after one query and after three. *)
Lemma local_read_only_queries_leave_client_untouched_witness :
  conn (self ro_built) = None
  /\ self (snd (query fake_tabulate "SELEC 1" ro_rejected_query)) = self ro_built
  /\ self (queries fake_tabulate ["SELECT 1"; "SELEC 1"; "SELECT 2"] ro_rejected_query)
     = self ro_built
  /\ trace (snd (query fake_tabulate "SELEC 1" ro_rejected_query))
     = (trace ro_rejected_query
        ++ ephemeral_events (self ro_rejected_query) "SELEC 1" (engine ro_rejected_query))%list.
Proof.
  exact (local_read_only_queries_leave_client_untouched
           "0.6.2" fake_tabulate "/data/file.db" None None false boot ro_built
           ro_rejected_query "SELEC 1" ["SELECT 1"; "SELEC 1"; "SELECT 2"]
           eq_refl eq_refl eq_refl).
Defined.


(** * The further properties on concrete runs *)

(** A remote target whose engine is unreachable at startup. *)
Lemma startup_connection_failure_is_not_retried_witness :
  fst (__init__ "0.6.2" (Some "md:") (Some "tok123") None false false refusing_boot)
  = inl (EngineError "unreachable")
  /\ trace (snd (__init__ "0.6.2" (Some "md:") (Some "tok123") None false false refusing_boot))
     = [EvConnect "md:?motherduck_token=tok123&single_attach=true" false (inl "unreachable")].
Proof.
  exact (startup_connection_failure_is_not_retried
           "0.6.2" "md:" (Some "tok123") None false false refusing_boot
           "md:?motherduck_token=tok123" motherduck "unreachable" (Fake 0 [] [] [] 0%nat)
           eq_refl eq_refl).
Defined.

(** A local file that opens but fails its first statement. *)
Lemma read_only_startup_check_leaks_on_failed_probe_witness :
  fst (__init__ "0.6.2" (Some "/data/file.db") None None false true failing_probe_boot)
  = inl (EngineError "corrupt")
  /\ trace (snd (__init__ "0.6.2" (Some "/data/file.db") None None false true
                         failing_probe_boot))
     = [EvConnect "/data/file.db" true (inr 0%nat); EvExecute 0%nat "SELECT 1" (inl "corrupt")]
  /\ released [EvConnect "/data/file.db" true (inr 0%nat);
               EvExecute 0%nat "SELECT 1" (inl "corrupt")] = false.
Proof.
  exact (read_only_startup_check_leaks_on_failed_probe
           "0.6.2" "/data/file.db" None None false failing_probe_boot 0%nat
           (Fake 0 [] [Some "corrupt"] [] 1%nat) (Fake 0 [] [] [] 1%nat) "corrupt"
           eq_refl eq_refl eq_refl).
Defined.

(** The local read-only client of the claims. *)
Lemma read_only_startup_check_succeeds_witness :
  conn (self ro_built) = None
  /\ exists (h : handle) (q : cursor),
       trace ro_built
       = [EvConnect "/data/file.db" true (inr h); EvExecute h "SELECT 1" (inr q);
          EvClose h None].
Proof.
  exact (read_only_startup_check_succeeds
           "0.6.2" "/data/file.db" None None false boot ro_built eq_refl eq_refl).
Defined.

(** The rejected query of the local read-only client, through both entry
    points. *)
Lemma query_sync_raises_engine_error_unwrapped_witness :
  fst (query_sync fake_tabulate "SELEC 1" ro_rejected_query)
  = inl (EngineError "syntax error")
  /\ snd (query fake_tabulate "SELEC 1" ro_rejected_query)
     = snd (query_sync fake_tabulate "SELEC 1" ro_rejected_query)
  /\ fst (query fake_tabulate "SELEC 1" ro_rejected_query)
     = inl (query_error (EngineError "syntax error")).
Proof.
  split; [reflexivity |].
  destruct (query_sync_raises_engine_error_unwrapped
              fake_tabulate ro_rejected_query "SELEC 1" eq_refl) as (Hstate & Hresult & _).
  split; [exact Hstate | exact Hresult].
Defined.

(** A writable local client within the interval, the engine rejecting the
    text. *)
Lemma query_sync_uses_stored_handle_unchecked_witness :
  trace (snd (query_sync fake_tabulate "SELEC 1" rw_rejecting_process))
  = [EvExecute 0%nat "SELEC 1" (inl "syntax error")]
  /\ query fake_tabulate "SELEC 1" rw_rejecting_process
     = query_sync fake_tabulate "SELEC 1" rw_rejecting_process.
Proof.
  destruct (query_sync_uses_stored_handle_unchecked
              fake_tabulate rw_rejecting_process 0%nat "SELEC 1" eq_refl) as [Hsync Hsame].
  split; [now rewrite Hsync | apply Hsame; reflexivity].
Defined.

(** The persistent client, 100 seconds after its last check. *)
Lemma query_after_interval_probes_then_submits_witness :
  trace (snd (query fake_tabulate "SELECT 42" (healthy_process 100)))
  = [EvExecute 0%nat "SELECT 1" (inr one_row); EvExecute 0%nat "SELECT 42" (inr one_row)]
  /\ _last_health_check (self (snd (query fake_tabulate "SELECT 42" (healthy_process 100))))
     = 100.
Proof.
  destruct (query_after_interval_probes_then_submits
              fake_tabulate (healthy_process 100) 0%nat "SELECT 42" one_row
              (Fake 100 [] [] [] 1%nat)) as (Htrace & Hself & _).
  - reflexivity.
  - vm_compute. discriminate.
  - reflexivity.
  - split; [exact Htrace | now rewrite Hself].
Defined.

(** The exhausted reconnection of the claims: three attempts, three
    seconds of sleep. *)
Lemma reconnection_attempts_and_sleep_are_bounded_witness :
  connect_attempts (trace (snd (_ensure_connection dead_handle_process))) = 3
  /\ sleep_total (trace (snd (_ensure_connection dead_handle_process))) = 3.
Proof.
  destruct (reconnection_attempts_and_sleep_are_bounded dead_handle_process 0%nat)
    as (_ & _ & Hexact).
  - reflexivity.
  - reflexivity.
  - reflexivity.
  - vm_compute. discriminate.
  - destruct (Hexact (EngineError "c") eq_refl) as [Hattempts Hsleep].
    split; [exact Hattempts | exact Hsleep].
Defined.

(** A reconnection that succeeds at once, then a call fifty seconds
    later. *)
Lemma reconnection_does_not_reset_check_time_witness :
  let s1 := snd (_ensure_connection recovering_process) in
  let s2 := State (self s1) (Fake 150 [] [] [] 2%nat) ∅ [] in
  _last_health_check (self s1) = 0
  /\ trace (snd (_health_check s2)) = [EvExecute 1%nat "SELECT 1" (inr one_row)].
Proof.
  cbv zeta.
  destruct (reconnection_does_not_reset_check_time
              recovering_process (snd (_ensure_connection recovering_process))
              (State (self (snd (_ensure_connection recovering_process)))
                     (Fake 150 [] [] [] 2%nat) ∅ [])
              0%nat 1%nat "dead" (Fake 100 [] [] [] 1%nat)) as [Hself Htrace].
  - reflexivity.
  - reflexivity.
  - reflexivity.
  - vm_compute. discriminate.
  - reflexivity.
  - reflexivity.
  - reflexivity.
  - vm_compute. discriminate.
  - split; [now rewrite Hself | exact Htrace].
Defined.

(** [--saas-mode] with the credential in the environment only. *)
Lemma main_passes_environment_token_explicitly_witness :
  db_path (self (snd (lightweight_server.main "0.6.2" cli_saas_args boot_with_env_token)))
  = "md:?motherduck_token=tok123&saas_mode=true&single_attach=true".
Proof.
  exact (main_passes_environment_token_explicitly
           "0.6.2" cli_saas_args boot_with_env_token "tok123" eq_refl eq_refl).
Defined.
